(** * guv: cooperative sockets, pipes and the hub registry

    A shallow embedding of [guv/greenio.py] and [guv/hubs/hub.py].

    Python objects become records, attribute dictionaries become finite maps,
    and every call that leaves the module (the wrapped OS socket, [os.read],
    [os.write], [os.close], the hub's [trampoline], [time.time]) is an event
    appended to a trace, answered by an oracle that is part of the world; the
    file behind a pipe is a position and a size that [os.lseek] moves.
    Exceptions are values of [exn]; a method is a state transformer that
    either returns, raises, or runs out of loop fuel. *)

From Stdlib Require Import ZArith Floats Lia.
From stdpp Require Import base option list gmap strings.

Local Open Scope Z_scope.

(** ** Errno codes (Linux values of the [errno] module; the tables below
    are only ever tested for membership) *)

Module errno.
Definition EAGAIN : Z := 11.
Definition EINVAL : Z := 22.
Definition ESPIPE : Z := 29.
Definition EWOULDBLOCK : Z := 11.
Definition EPIPE : Z := 32.
Definition EBADFD : Z := 77.
Definition ECONNRESET : Z := 104.
Definition EISCONN : Z := 106.
Definition ENOTCONN : Z := 107.
Definition ESHUTDOWN : Z := 108.
Definition ECONNREFUSED : Z := 111.
Definition EALREADY : Z := 114.
Definition EINPROGRESS : Z := 115.
Definition WSAEINVAL : Z := 10022.
End errno.

(** [sys.platform[:3] == 'win'] selects between two variants of the tables. *)
Inductive platform := Win | Posix.

Definition CONNECT_ERR (p : platform) : list Z :=
  match p with
  | Win => [errno.EINPROGRESS; errno.EALREADY; errno.EWOULDBLOCK; errno.WSAEINVAL]
  | Posix => [errno.EINPROGRESS; errno.EALREADY; errno.EWOULDBLOCK]
  end.

Definition CONNECT_SUCCESS : list Z := [0; errno.EISCONN].

Definition SOCKET_BLOCKING (p : platform) : list Z :=
  match p with
  | Win => [errno.EAGAIN; errno.EWOULDBLOCK]
  | Posix => [errno.EAGAIN; errno.EWOULDBLOCK; errno.ENOTCONN]
  end.

Definition SOCKET_CLOSED (p : platform) : list Z :=
  match p with
  | Win => [errno.ECONNRESET; errno.ENOTCONN; errno.ESHUTDOWN]
  | Posix => [errno.ECONNRESET; errno.ESHUTDOWN; errno.EPIPE]
  end.

(** Python's [x in s] for a set of integers. *)
Definition py_in (x : Z) (s : list Z) : bool := bool_decide (x ∈ s).

(** [get_errno(e) in s]: [get_errno] may yield [None], which is in no table. *)
Definition errno_in (c : option Z) (s : list Z) : bool :=
  match c with
  | Some x => py_in x s
  | None => false
  end.

(** ** Values and exceptions *)

Definition bytes := list Byte.byte.
Definition address := (string * Z)%type.

(** What [recv] hands back: the OS gives bytes, the peer-closed path gives
    the literal [''] of the source. *)
Inductive pydata :=
| PyBytes (b : bytes)
| PyStr (s : string).

(** The arguments an [OSError] is built from, as far as this module reads
    them: a numeric code first ([socket.error(err, msg)],
    [socket.timeout(errno.EAGAIN)]) or a message alone
    ([socket.timeout("timed out")]). *)
Inductive os_args :=
| Code (code : Z)
| Message (msg : string).

Inductive exn :=
| OSError (args : os_args)         (* socket.error, IOError, OSError: one class *)
| socket_timeout (args : os_args)  (* socket.timeout: a subclass of socket.error *)
| IOClosed                         (* guv.exceptions.IOClosed *)
| EOFError
| ValueError (msg : string)
| TypeError (msg : string)
| AttributeError (name : string)
| ImportError
| HubTimeout                       (* the hub's own default timeout exception *)
| OtherError (name : string).

(** [socket.error(code, errno.errorcode[code])] and [socket.error(code)]. *)
Definition socket_error (code : Z) : exn := OSError (Code code).

(** [except socket.error] and [except OSError] match [OSError] and its
    subclass [socket.timeout].

    Modelled from the spec: [guv/exceptions.py] is not among the sources; the
    closed signal [IOClosed] is "a distinguished error value", so it is not
    matched by [except socket.error]. *)
Definition is_socket_error (e : exn) : bool :=
  match e with
  | OSError _ | socket_timeout _ => true
  | _ => false
  end.

Definition is_IOClosed (e : exn) : bool :=
  match e with
  | IOClosed => true
  | _ => false
  end.

(** Modelled from the spec: [guv.support.get_errno] is not among the sources;
    "given a raised OS-level error, returns its numeric code". An error built
    from a message alone has no numeric code. *)
Definition get_errno (e : exn) : option Z :=
  match e with
  | OSError (Code c) | socket_timeout (Code c) => Some c
  | _ => None
  end.

(** [IOError( *e.args )] for a caught [OSError] [e]. *)
Definition IOError_of (e : exn) : exn :=
  match e with
  | OSError a | socket_timeout a => OSError a
  | _ => e
  end.

(** ** Outcomes and the state monad of a method body *)

Inductive result (A : Type) :=
| Return (a : A)
| Raise (e : exn)
| OutOfFuel.
Arguments Return {A} a.
Arguments Raise {A} e.
Arguments OutOfFuel {A}.

Definition M (S A : Type) : Type := S -> result A * S.

Definition ret {S A} (a : A) : M S A := fun s => (Return a, s).
Definition raise {S A} (e : exn) : M S A := fun s => (Raise e, s).
Definition out_of_fuel {S A} : M S A := fun s => (OutOfFuel, s).

Definition bind {S A B} (m : M S A) (k : A -> M S B) : M S B :=
  fun s =>
    match m s with
    | (Return a, s') => k a s'
    | (Raise e, s') => (Raise e, s')
    | (OutOfFuel, s') => (OutOfFuel, s')
    end.

Declare Scope py_scope.
Delimit Scope py_scope with py.
Notation "x <- m ;; k" := (bind m (fun x => k))
  (at level 100, m at next level, right associativity) : py_scope.
Notation "m ;;; k" := (bind m (fun _ => k))
  (at level 100, right associativity) : py_scope.
Local Open Scope py_scope.

Definition get {S} : M S S := fun s => (Return s, s).
Definition put {S} (s : S) : M S unit := fun _ => (Return tt, s).
Definition modify {S} (f : S -> S) : M S unit := fun s => (Return tt, f s).

(** [try: body / except <clauses>]: [handler e] is [None] when no clause
    matches [e], which then propagates. *)
Definition try_except {S A} (body : M S A) (handler : exn -> option (M S A)) : M S A :=
  fun s =>
    match body s with
    | (Raise e, s') =>
        match handler e with
        | Some h => h s'
        | None => (Raise e, s')
        end
    | r => r
    end.

(** ** The world outside the module *)

(** How a wait on the hub ends. *)
Inductive wakeup :=
| Ready      (* the descriptor became ready *)
| Elapsed    (* the deadline, when one was given, passed first *)
| Closed.    (* the registration was invalidated: the closed signal *)

Inductive event :=
| sock_recv (fd buflen flags : Z)
| sock_send (fd : Z) (data : bytes) (flags : Z)
| sock_sendto (fd : Z) (data : bytes) (addr : address)
| sock_connect (fd : Z) (addr : address)
| sock_connect_ex (fd : Z) (addr : address)
| sock_getsockopt_SO_ERROR (fd : Z)
| sock_accept (fd : Z)
| sock_setblocking (fd : Z) (flag : bool)
| hub_trampoline (fd : Z) (read write : bool) (timeout : option float)
                 (timeout_exc : option exn)
| hub_notify_close (fd : Z)
| hub_mark_as_reopened (fd : Z)
| os_read (fd buflen : Z)
| os_write (fd : Z) (data : bytes)
| os_close (fd : Z)
| os_lseek (fd offset whence : Z)
| os_ftruncate (fd size : Z)
| os_isatty (fd : Z)
| time_time.

(** What an external call answers: a value or an exception. *)
Inductive reply (A : Type) :=
| Gives (a : A)
| Throws (e : exn).
Arguments Gives {A} a.
Arguments Throws {A} e.

(** The oracle answers the [n]-th external call ([n] counts every event so
    far), each kind of call with its own type of answer. *)
Record oracle := {
  on_recv : nat -> reply bytes;
  on_send : nat -> reply Z;
  on_sendto : nat -> reply Z;
  on_connect : nat -> reply unit;
  on_connect_ex : nat -> Z;
  on_SO_ERROR : nat -> Z;
  on_accept : nat -> reply (Z * address);
  on_read : nat -> reply bytes;
  on_write : nat -> reply Z;
  on_close : nat -> reply unit;
  on_trampoline : nat -> wakeup;
  on_time : nat -> float;
}.

Record world := {
  sys_platform : platform;
  getdefaulttimeout : option float;   (* socket.getdefaulttimeout() *)
  answers : oracle;
  trace : list event;                 (* oldest first *)
}.

Definition log (e : event) (w : world) : world :=
  {| sys_platform := sys_platform w;
     getdefaulttimeout := getdefaulttimeout w;
     answers := answers w;
     trace := trace w ++ [e] |}.

(** The index of the next external call. *)
Definition now (w : world) : nat := length (trace w).

(** An external call that always answers a value. *)
Definition ask {A} (ev : event) (f : oracle -> nat -> A) : M world A :=
  fun w => (Return (f (answers w) (now w)), log ev w).

(** An external call that may raise. *)
Definition call {A} (ev : event) (f : oracle -> nat -> reply A) : M world A :=
  fun w =>
    match f (answers w) (now w) with
    | Gives a => (Return a, log ev w)
    | Throws e => (Raise e, log ev w)
    end.

(** Modelled from the spec: the suspend primitive [guv.hubs.trampoline] is
    not among the sources. It "suspends the calling task until the descriptor
    is ready in the requested direction(s), or raises the supplied timeout
    error/value after [timeout] elapses, or raises a closed signal if the
    descriptor's registration was invalidated while waiting". Without a
    [timeout] no deadline exists, so the wait cannot end by one. *)
Definition trampoline (fd : Z) (read write : bool) (timeout : option float)
    (timeout_exc : option exn) : M world unit :=
  fun w =>
    let w' := log (hub_trampoline fd read write timeout timeout_exc) w in
    match on_trampoline (answers w) (now w), timeout with
    | Closed, _ => (Raise IOClosed, w')
    | Elapsed, Some _ => (Raise (default HubTimeout timeout_exc), w')
    | _, _ => (Return tt, w')
    end.

(** A method body runs on its object and the world. *)
Section Object.
Context {Self W : Type}.

Definition self : M (Self * W) Self := fun s => (Return (fst s), s).

Definition set_self (f : Self -> Self) : M (Self * W) unit :=
  fun s => (Return tt, (f (fst s), snd s)).

Definition the_world : M (Self * W) W := fun s => (Return (snd s), s).

Definition outside {A} (m : M W A) : M (Self * W) A :=
  fun s =>
    let '(r, w') := m (snd s) in (r, (fst s, w')).
End Object.

(** How many waits on the hub, and how many calls on the wrapped socket, a
    trace holds. *)
Definition is_trampoline (e : event) : bool :=
  match e with
  | hub_trampoline _ _ _ _ _ => true
  | _ => false
  end.

Definition is_sock_call (e : event) : bool :=
  match e with
  | sock_recv _ _ _ | sock_send _ _ _ | sock_sendto _ _ _ | sock_connect _ _
  | sock_connect_ex _ _ | sock_getsockopt_SO_ERROR _ | sock_accept _
  | sock_setblocking _ _ => true
  | _ => false
  end.

Definition is_release (e : event) : bool :=
  match e with
  | os_close _ => true
  | _ => false
  end.

Definition is_notify_close (e : event) : bool :=
  match e with
  | hub_notify_close _ => true
  | _ => false
  end.

Definition count (p : event -> bool) (t : list event) : nat :=
  length (filter (fun e => p e = true) t).

(** The events a run added to the trace. *)
Definition since (w0 w1 : world) : list event :=
  drop (length (trace w0)) (trace w1).

(** ** Low-level connect and accept helpers *)

(** [socket_connect]: [true] for "returns the socket", [false] for "returns
    None, needs to trampoline". *)
Definition socket_connect (p : platform) (sock : Z) (addr : address) : M world bool :=
  err <- ask (sock_connect_ex sock addr) on_connect_ex;;
  if py_in err (CONNECT_ERR p) then ret false
  else if negb (py_in err CONNECT_SUCCESS) then raise (socket_error err)
  else ret true.

Definition socket_checkerr (sock : Z) : M world unit :=
  err <- ask (sock_getsockopt_SO_ERROR sock) on_SO_ERROR;;
  if negb (py_in err CONNECT_SUCCESS) then raise (socket_error err)
  else ret tt.

(** [socket_accept]: [None] when the caller needs to trampoline. *)
Definition socket_accept (sock : Z) : M world (option (Z * address)) :=
  try_except
    (r <- call (sock_accept sock) on_accept;; ret (Some r))
    (fun e =>
       if is_socket_error e then
         Some (if bool_decide (get_errno e = Some errno.EWOULDBLOCK) then ret None
               else raise e)
       else None).

(** [set_nonblocking(sock)] on an object that has [setblocking]. *)
Definition set_nonblocking (sock : Z) : M world unit :=
  fun w => (Return tt, log (sock_setblocking sock false) w).

(** Truth value of a timeout, as [x or y] tests it. *)
Definition truthy (t : option float) : bool :=
  match t with
  | None => false
  | Some f => negb (PrimFloat.eqb f 0%float)
  end.

(** Python's [data[n:]]. *)
Definition slice_from {A} (n : Z) (data : list A) : list A :=
  if Z.ltb n 0 then drop (Z.to_nat (Z.of_nat (length data) + n)) data
  else drop (Z.to_nat n) data.

(** An argument of [settimeout]. *)
Inductive pyobj :=
| PyNone
| PyGlobalDefaultTimeout          (* socket._GLOBAL_DEFAULT_TIMEOUT *)
| PyNumber (as_float : float)     (* has [__float__], which returns [as_float] *)
| PyOther (repr : string).        (* has no [__float__]: a str, a list, ... *)

(** ** class GreenSocket *)

Module GreenSocket.

Record t := {
  sock : Z;                  (* the original socket, named by its descriptor *)
  act_non_blocking : bool;
  _timeout : option float;   (* [None]: no deadline *)
  _closed : bool;
}.

Definition state : Type := t * world.

Definition set_act_non_blocking (b : bool) (s : t) : t :=
  {| sock := sock s; act_non_blocking := b; _timeout := _timeout s;
     _closed := _closed s |}.

Definition set_timeout (o : option float) (s : t) : t :=
  {| sock := sock s; act_non_blocking := act_non_blocking s; _timeout := o;
     _closed := _closed s |}.

Definition set_closed (b : bool) (s : t) : t :=
  {| sock := sock s; act_non_blocking := act_non_blocking s;
     _timeout := _timeout s; _closed := b |}.

(** [__init__] on an existing socket whose own [gettimeout()] is
    [sock_timeout]. *)
Definition __init__ (fd : Z) (sock_timeout : option float)
    (should_set_nonblocking : bool) : M world t :=
  w <- get;;
  let timeout :=
    if truthy sock_timeout then sock_timeout else getdefaulttimeout w in
  (if should_set_nonblocking then set_nonblocking fd else ret tt);;;
  ret {| sock := fd; act_non_blocking := false; _timeout := timeout;
         _closed := false |}.

Definition fileno : M state Z := s <- self;; ret (sock s).

Definition gettimeout : M state (option float) := s <- self;; ret (_timeout s).

Definition _mark_as_closed : M state unit := set_self (set_closed true).

Definition _trampoline (fd : Z) (read write : bool) (timeout : option float)
    (timeout_exc : option exn) : M state unit :=
  s <- self;;
  if _closed s then raise IOClosed
  else
    try_except
      (outside (trampoline fd read write timeout timeout_exc))
      (fun e => if is_IOClosed e then Some (_mark_as_closed;;; raise e) else None).

Definition timed_out : exn := socket_timeout (Message "timed out").

(** What [accept] returns: the OS pair as it is, or a wrapped client. *)
Inductive accepted :=
| Plain (client : Z) (addr : address)
| Green (client : t) (addr : address).

Fixpoint accept_loop (fuel : nat) : M state accepted :=
  match fuel with
  | O => out_of_fuel
  | S fuel' =>
      s <- self;;
      res <- outside (socket_accept (sock s));;
      match res with
      | Some (client, addr) =>
          outside (set_nonblocking client);;;
          g <- outside (__init__ client (Some 0%float) true);;
          ret (Green g addr)
      | None =>
          fd <- fileno;;
          timeout <- gettimeout;;
          _trampoline fd true false timeout (Some timed_out);;;
          accept_loop fuel'
      end
  end.

Definition accept (fuel : nat) : M state accepted :=
  s <- self;;
  if act_non_blocking s then
    r <- outside (call (sock_accept (sock s)) on_accept);;
    ret (Plain (fst r) (snd r))
  else accept_loop fuel.

(** The closed signal becomes [e]; everything else passes. *)
Definition closed_as {A} (e : exn) (body : M state A) : M state A :=
  try_except body (fun x => if is_IOClosed x then Some (raise e) else None).

Fixpoint connect_forever (fuel : nat) (p : platform) (sock : Z) (fd : Z)
    (addr : address) : M state unit :=
  match fuel with
  | O => out_of_fuel
  | S fuel' =>
      ok <- outside (socket_connect p sock addr);;
      if ok then ret tt
      else
        closed_as (socket_error errno.EBADFD)
          (_trampoline fd false true None None);;;
        outside (socket_checkerr sock);;;
        connect_forever fuel' p sock fd addr
  end.

Fixpoint connect_until (fuel : nat) (p : platform) (sock : Z) (fd : Z)
    (addr : address) (deadline : float) : M state unit :=
  match fuel with
  | O => out_of_fuel
  | S fuel' =>
      ok <- outside (socket_connect p sock addr);;
      if ok then ret tt
      else
        t1 <- outside (ask time_time on_time);;
        if PrimFloat.leb deadline t1 then raise timed_out
        else
          t2 <- outside (ask time_time on_time);;
          closed_as (socket_error errno.EBADFD)
            (_trampoline fd false true (Some (PrimFloat.sub deadline t2))
               (Some timed_out));;;
          outside (socket_checkerr sock);;;
          connect_until fuel' p sock fd addr deadline
  end.

Definition connect (fuel : nat) (addr : address) : M state unit :=
  s <- self;;
  if act_non_blocking s then outside (call (sock_connect (sock s) addr) on_connect)
  else
    w <- the_world;;
    fd <- fileno;;
    timeout <- gettimeout;;
    match timeout with
    | None => connect_forever fuel (sys_platform w) (sock s) fd addr
    | Some d =>
        t0 <- outside (ask time_time on_time);;
        connect_until fuel (sys_platform w) (sock s) fd addr (PrimFloat.add t0 d)
    end.

(** Inside a loop body: [return v], or go round again. *)
Inductive flow (A : Type) :=
| Returned (v : A)
| Continue.
Arguments Returned {A} v.
Arguments Continue {A}.

(** The two [except] clauses of [connect_ex], in the order of the source. *)
Definition connect_ex_handler (ex : exn) : option (M state (flow (option Z))) :=
  if is_socket_error ex then Some (ret (Returned (get_errno ex)))
  else if is_IOClosed ex then Some (ret (Returned (Some errno.EBADFD)))
  else None.

(** [None] is Python's [None]: the method fell off its end. *)
Fixpoint connect_ex_forever (fuel : nat) (p : platform) (sock : Z) (fd : Z)
    (addr : address) : M state (option Z) :=
  match fuel with
  | O => out_of_fuel
  | S fuel' =>
      ok <- outside (socket_connect p sock addr);;
      if ok then ret None
      else
        r <- try_except
               (_trampoline fd false true None None;;;
                outside (socket_checkerr sock);;;
                ret Continue)
               connect_ex_handler;;
        match r with
        | Returned code => ret code
        | Continue => connect_ex_forever fuel' p sock fd addr
        end
  end.

Definition timed_out_EAGAIN : exn := socket_timeout (Code errno.EAGAIN).

Fixpoint connect_ex_until (fuel : nat) (p : platform) (sock : Z) (fd : Z)
    (addr : address) (deadline : float) : M state (option Z) :=
  match fuel with
  | O => out_of_fuel
  | S fuel' =>
      r <- try_except
             (ok <- outside (socket_connect p sock addr);;
              if ok then ret (Returned (Some 0))
              else
                t1 <- outside (ask time_time on_time);;
                if PrimFloat.leb deadline t1 then raise timed_out_EAGAIN
                else
                  t2 <- outside (ask time_time on_time);;
                  _trampoline fd false true (Some (PrimFloat.sub deadline t2))
                    (Some timed_out_EAGAIN);;;
                  outside (socket_checkerr sock);;;
                  ret Continue)
             connect_ex_handler;;
      match r with
      | Returned code => ret code
      | Continue => connect_ex_until fuel' p sock fd addr deadline
      end
  end.

Definition connect_ex (fuel : nat) (addr : address) : M state (option Z) :=
  s <- self;;
  if act_non_blocking s then
    err <- outside (ask (sock_connect_ex (sock s) addr) on_connect_ex);;
    ret (Some err)
  else
    w <- the_world;;
    fd <- fileno;;
    timeout <- gettimeout;;
    match timeout with
    | None => connect_ex_forever fuel (sys_platform w) (sock s) fd addr
    | Some d =>
        t0 <- outside (ask time_time on_time);;
        connect_ex_until fuel (sys_platform w) (sock s) fd addr (PrimFloat.add t0 d)
    end.

(** The [except socket.error] clause of [recv]: [pass], [return ''], or
    re-raise. *)
Definition recv_handler (p : platform) (e : exn) : option (M state (flow pydata)) :=
  if is_socket_error e then
    Some (if errno_in (get_errno e) (SOCKET_BLOCKING p) then ret Continue
          else if errno_in (get_errno e) (SOCKET_CLOSED p) then ret (Returned (PyStr ""))
          else raise e)
  else None.

Fixpoint recv_loop (fuel : nat) (p : platform) (sock : Z) (buflen flags : Z)
    : M state pydata :=
  match fuel with
  | O => out_of_fuel
  | S fuel' =>
      r <- try_except
             (b <- outside (call (sock_recv sock buflen flags) on_recv);;
              ret (Returned (PyBytes b)))
             (recv_handler p);;
      match r with
      | Returned v => ret v
      | Continue =>
          fd <- fileno;;
          timeout <- gettimeout;;
          closed_as EOFError (_trampoline fd true false timeout (Some timed_out));;;
          recv_loop fuel' p sock buflen flags
      end
  end.

Definition recv (fuel : nat) (buflen flags : Z) : M state pydata :=
  s <- self;;
  if act_non_blocking s then
    b <- outside (call (sock_recv (sock s) buflen flags) on_recv);;
    ret (PyBytes b)
  else
    w <- the_world;;
    recv_loop fuel (sys_platform w) (sock s) buflen flags.

Fixpoint _old_send_loop (fuel : nat) (p : platform) (sock : Z) (data : bytes)
    (flags : Z) (total_sent : Z) : M state Z :=
  match fuel with
  | O => out_of_fuel
  | S fuel' =>
      total_sent <-
        try_except
          (n <- outside (call (sock_send sock (slice_from total_sent data) flags) on_send);;
           ret (total_sent + n))
          (fun e =>
             if is_socket_error e then
               Some (if negb (errno_in (get_errno e) (SOCKET_BLOCKING p)) then raise e
                     else ret total_sent)
             else None);;
      if Z.eqb total_sent (Z.of_nat (length data)) then ret total_sent
      else
        fd <- fileno;;
        timeout <- gettimeout;;
        closed_as (socket_error errno.ECONNRESET)
          (_trampoline fd false true timeout (Some timed_out));;;
        _old_send_loop fuel' p sock data flags total_sent
  end.

Definition _old_send (fuel : nat) (data : bytes) (flags : Z) : M state Z :=
  s <- self;;
  if act_non_blocking s then outside (call (sock_send (sock s) data flags) on_send)
  else
    w <- the_world;;
    _old_send_loop fuel (sys_platform w) (sock s) data flags 0.

(** [send = _old_send] *)
Definition send := _old_send.

Definition sendto (data : bytes) (addr : address) : M state Z :=
  fd <- fileno;;
  _trampoline fd false true None None;;;
  s <- self;;
  outside (call (sock_sendto (sock s) data addr) on_sendto).

Definition setblocking (flag : bool) : M state unit :=
  if flag then
    set_self (set_act_non_blocking false);;;
    set_self (set_timeout None)
  else
    set_self (set_act_non_blocking true);;;
    set_self (set_timeout (Some 0%float)).

Definition settimeout (howlong : pyobj) : M state unit :=
  match howlong with
  | PyNone | PyGlobalDefaultTimeout => setblocking true
  | PyOther _ => raise (TypeError "a float is required")
  | PyNumber howlong =>
      if PrimFloat.ltb howlong 0%float then raise (ValueError "Timeout value out of range")
      else if PrimFloat.eqb howlong 0%float then
        set_self (set_act_non_blocking true);;;
        set_self (set_timeout (Some 0%float))
      else
        set_self (set_act_non_blocking false);;;
        set_self (set_timeout (Some howlong))
  end.
(** The second send loop of the source, not bound to [send]: it runs while
    the view [mv] of the unsent data is not empty, and waits after every
    attempt. *)
Fixpoint _new_send_loop (fuel : nat) (p : platform) (sock : Z) (flags : Z)
    (mv : bytes) (total_sent : Z) : M state Z :=
  match mv with
  | [] => ret total_sent
  | _ :: _ =>
      match fuel with
      | O => out_of_fuel
      | S fuel' =>
          r <- try_except
                 (b_sent <- outside (call (sock_send sock mv flags) on_send);;
                  ret (total_sent + b_sent, slice_from b_sent mv))
                 (fun e =>
                    if is_socket_error e then
                      Some (if negb (errno_in (get_errno e) (SOCKET_BLOCKING p))
                            then raise e
                            else ret (total_sent, mv))
                    else None);;
          fd <- fileno;;
          timeout <- gettimeout;;
          closed_as (socket_error errno.ECONNRESET)
            (_trampoline fd false true timeout (Some timed_out));;;
          _new_send_loop fuel' p sock flags (snd r) (fst r)
      end
  end.

Definition _new_send (fuel : nat) (data : bytes) (flags : Z) : M state Z :=
  s <- self;;
  if act_non_blocking s then outside (call (sock_send (sock s) data flags) on_send)
  else
    w <- the_world;;
    _new_send_loop fuel (sys_platform w) (sock s) flags data 0.

(** [sendall]: [send] on what is left, while something is left. *)
Fixpoint sendall (fuel : nat) (mv : bytes) (flags : Z) : M state unit :=
  match mv with
  | [] => ret tt
  | _ :: _ =>
      match fuel with
      | O => out_of_fuel
      | S fuel' =>
          b_sent <- send fuel mv flags;;
          sendall fuel' (slice_from b_sent mv) flags
      end
  end.
End GreenSocket.

(** ** class _SocketDuckForFd *)

Module _SocketDuckForFd.

Record t := {
  _fileno : Z;
  _refcount : Z;
  _closed : bool;
}.

Definition state : Type := t * world.

Definition set_refcount (n : Z) (s : t) : t :=
  {| _fileno := _fileno s; _refcount := n; _closed := _closed s |}.

Definition set_closed (b : bool) (s : t) : t :=
  {| _fileno := _fileno s; _refcount := _refcount s; _closed := b |}.

(** [notify_opened(fd)] and [notify_close(fd)] of [guv.hubs]: forwarded to
    the hub of the thread. *)
Definition notify_opened (fd : Z) : M world unit :=
  fun w => (Return tt, log (hub_mark_as_reopened fd) w).

Definition notify_close (fd : Z) : M world unit :=
  fun w => (Return tt, log (hub_notify_close fd) w).

(** The class attribute [_refcount = 0] is what a new instance reads. *)
Definition __init__ (fileno : Z) : M world t :=
  notify_opened fileno;;;
  ret {| _fileno := fileno; _refcount := 0; _closed := false |}.

Definition _mark_as_closed : M state unit := set_self (set_closed true).

Definition _trampoline (fd : Z) (read write : bool) (timeout : option float)
    (timeout_exc : option exn) : M state unit :=
  s <- self;;
  if _closed s then raise IOClosed
  else
    try_except
      (outside (trampoline fd read write timeout timeout_exc))
      (fun e => if is_IOClosed e then Some (_mark_as_closed;;; raise e) else None).

Definition fileno : M state Z := s <- self;; ret (_fileno s).

Fixpoint recv (fuel : nat) (buflen : Z) : M state bytes :=
  match fuel with
  | O => out_of_fuel
  | S fuel' =>
      s <- self;;
      w <- the_world;;
      r <- try_except
             (data <- outside (call (os_read (_fileno s) buflen) on_read);;
              ret (Some data))
             (fun e =>
                if is_socket_error e then
                  Some (if negb (errno_in (get_errno e) (SOCKET_BLOCKING (sys_platform w)))
                        then raise (IOError_of e)
                        else ret None)
                else None);;
      match r with
      | Some data => ret data
      | None =>
          fd <- fileno;;
          _trampoline fd true false None None;;;
          recv fuel' buflen
      end
  end.

(** The wait of [send] is the module-level [trampoline], not
    [self._trampoline]. *)
Fixpoint send (fuel : nat) (data : bytes) : M state Z :=
  match fuel with
  | O => out_of_fuel
  | S fuel' =>
      s <- self;;
      w <- the_world;;
      r <- try_except
             (n <- outside (call (os_write (_fileno s) data) on_write);;
              ret (Some n))
             (fun e =>
                if is_socket_error e then
                  Some (if negb (errno_in (get_errno e) (SOCKET_BLOCKING (sys_platform w)))
                        then raise (IOError_of e)
                        else
                          fd <- fileno;;
                          outside (trampoline fd false true None None);;;
                          ret None)
                else None);;
      match r with
      | Some n => ret n
      | None => send fuel' data
      end
  end.

(** One [os_write] of [sendall]: only [EAGAIN] is forgiven. *)
Definition write_some (fd : Z) (data : bytes) (total_sent : Z) : M state Z :=
  try_except
    (n <- outside (call (os_write fd data) on_write);;
     ret (total_sent + n))
    (fun e =>
       if is_socket_error e then
         Some (if negb (bool_decide (get_errno e = Some errno.EAGAIN))
               then raise (IOError_of e)
               else ret total_sent)
       else None).

Fixpoint sendall_loop (fuel : nat) (fd : Z) (data : bytes) (total_sent : Z)
    : M state unit :=
  if Z.ltb total_sent (Z.of_nat (length data)) then
    match fuel with
    | O => out_of_fuel
    | S fuel' =>
        fd' <- fileno;;
        _trampoline fd' false true None None;;;
        total_sent <- write_some fd (slice_from total_sent data) total_sent;;
        sendall_loop fuel' fd data total_sent
    end
  else ret tt.

Definition sendall (fuel : nat) (data : bytes) : M state unit :=
  s <- self;;
  total_sent <- write_some (_fileno s) data 0;;
  sendall_loop fuel (_fileno s) data total_sent.

(** [try: os.close(fd) / except: pass] *)
Definition _close : M state unit :=
  s <- self;;
  outside (notify_close (_fileno s));;;
  _mark_as_closed;;;
  try_except (outside (call (os_close (_fileno s)) on_close))
    (fun _ => Some (ret tt)).

Definition _reuse : M state unit :=
  s <- self;;
  set_self (set_refcount (_refcount s + 1)).

Definition _drop : M state unit :=
  s <- self;;
  set_self (set_refcount (_refcount s - 1));;;
  s <- self;;
  if Z.eqb (_refcount s) 0 then _close else ret tt.

(** [_decref_socketios = _drop] *)
Definition _decref_socketios := _drop.

(** [__del__] calls [self._close()]. *)
Definition __del__ := _close.
End _SocketDuckForFd.

(** ** class GreenPipe *)

Module GreenPipe.

(** What the instance dictionary of a pipe can hold: what [__init__] and
    [close] store there with [setattr], and a buffer object (one with
    [getvalue], such as [io.BytesIO]) that only a caller could put there. *)
Inductive attr :=
| AInt (n : Z)
| AStr (s : string)
| ABuffer (content : bytes)
| _operation_on_closed_file.     (* the module-level function *)

(** The file behind the descriptor, as the OS holds it. *)
Record os_file := {
  seekable : bool;
  offset : Z;        (* the OS file position *)
  size : Z;
  tty : bool;
}.

Record disk := {
  file : os_file;
  syscalls : list event;   (* oldest first *)
}.

Definition sys (e : event) (d : disk) : disk :=
  {| file := file d; syscalls := syscalls d ++ [e] |}.

Definition resize (n : Z) (f : os_file) : os_file :=
  {| seekable := seekable f; offset := offset f; size := n; tty := tty f |}.

(** [os.lseek(fd, pos, how)] on this file. *)
Definition lseek (fd pos how : Z) : M disk Z :=
  fun d =>
    let d' := sys (os_lseek fd pos how) d in
    if negb (seekable (file d)) then (Raise (socket_error errno.ESPIPE), d')
    else
      let target :=
        if Z.eqb how 0 then Some pos
        else if Z.eqb how 1 then Some (offset (file d) + pos)
        else if Z.eqb how 2 then Some (size (file d) + pos)
        else None in
      match target with
      | Some n =>
          if Z.ltb n 0 then (Raise (socket_error errno.EINVAL), d')
          else (Return n,
                {| file := {| seekable := seekable (file d); offset := n;
                              size := size (file d); tty := tty (file d) |};
                   syscalls := syscalls d' |})
      | None => (Raise (socket_error errno.EINVAL), d')
      end.

(** [os.ftruncate(fd, length)]. *)
Definition ftruncate (fd length : Z) : M disk unit :=
  fun d =>
    let d' := sys (os_ftruncate fd length) d in
    if Z.ltb length 0 then (Raise (socket_error errno.EINVAL), d')
    else (Return tt, {| file := resize length (file d); syscalls := syscalls d' |}).

Record t := {
  _fileno : Z;                   (* the descriptor of the duck socket *)
  _name : string;
  mode : string;
  closed : bool;
  __dict__ : gmap string attr;   (* instance attributes set by [setattr] *)
}.

Definition state : Type := t * disk.

Definition set_closed (b : bool) (s : t) : t :=
  {| _fileno := _fileno s; _name := _name s; mode := mode s; closed := b;
     __dict__ := __dict__ s |}.

Definition setattr (name : string) (v : attr) (s : t) : t :=
  {| _fileno := _fileno s; _name := _name s; mode := mode s; closed := closed s;
     __dict__ := <[name := v]> (__dict__ s) |}.

Definition closed_file : exn := ValueError "I/O operation on closed file".

(** [self.name(...)]: the instance dictionary is looked up before the
    class, whose method body is [impl]. *)
Definition method {A} (name : string) (impl : M state A) : M state A :=
  s <- self;;
  match __dict__ s !! name with
  | Some _operation_on_closed_file => raise closed_file
  | Some _ => raise (TypeError "object is not callable")
  | None => impl
  end.

(** [self.name] for a name that no class of the pipe defines ([GreenPipe],
    [socket.SocketIO], [io.RawIOBase], [io.IOBase]): only the instance
    dictionary can hold it. *)
Definition getattr (name : string) : M state attr :=
  s <- self;;
  match __dict__ s !! name with
  | Some v => ret v
  | None => raise (AttributeError name)
  end.

(** [IOBase._checkClosed] of the standard library, which the methods of
    the base class [socket.SocketIO] start with. *)
Definition closed_stream : exn := ValueError "I/O operation on closed file.".

Definition _checkClosed : M state unit :=
  s <- self;;
  if closed s then raise closed_stream else ret tt.

(** [socket.SocketIO.fileno]: [self._checkClosed()], then the descriptor of
    the duck socket. *)
Definition fileno : M state Z :=
  method "fileno" (_checkClosed;;; s <- self;; ret (_fileno s)).

(** [io.IOBase.flush], which neither [socket.SocketIO] nor [GreenPipe]
    overrides: the stream is raw, there is nothing to write out. *)
Definition flush : M state unit :=
  method "flush" _checkClosed.

(** Modelled from the spec: "the buffered-stream's own close". *)
Definition base_close : M state unit :=
  set_self (set_closed true).

Definition closed_methods : list string :=
  ["fileno"; "flush"; "isatty"; "next"; "read"; "readinto";
   "readline"; "readlines"; "seek"; "tell"; "truncate";
   "write"; "xreadlines"; "__iter__"; "__next__"; "writelines"].

Definition close : M state unit :=
  base_close;;;
  set_self (fun s =>
    foldl (fun s method => setattr method _operation_on_closed_file s) s closed_methods).

(** [len(self._rbuf.getvalue())]. No class of the pipe defines [_rbuf] and
    no method assigns it. *)
Definition _get_readahead_len : M state Z :=
  _rbuf <- getattr "_rbuf";;
  match _rbuf with
  | ABuffer content => ret (Z.of_nat (length content))
  | _ => raise (AttributeError "getvalue")
  end.

(** [except OSError as e: raise IOError( *e.args )] *)
Definition as_IOError {A} (body : M state A) : M state A :=
  try_except body
    (fun e => if is_socket_error e then Some (raise (IOError_of e)) else None).

Definition tell : M state Z :=
  method "tell"
    (flush;;;
     as_IOError
       (fd <- fileno;;
        pos <- outside (lseek fd 0 1);;
        len <- _get_readahead_len;;
        ret (pos - len))).

Section inherited.
(** [io.RawIOBase.read], which the pipe inherits through
    [socket.SocketIO]: it reads from the descriptor, through [readinto] and
    the [recv_into] of the duck socket. It is not part of this module. *)
Variable RawIOBase_read : nat -> M state bytes.

Definition read (n : nat) : M state bytes :=
  method "read" (RawIOBase_read n).

Definition _clear_readahead_buf : M state unit :=
  len <- _get_readahead_len;;
  if Z.ltb 0 len then read (Z.to_nat len);;; ret tt else ret tt.

Definition seek (pos : Z) (whence : Z) : M state Z :=
  method "seek"
    (flush;;;
     if Z.eqb whence 1 && Z.eqb pos 0 then tell
     else
       pos <- (if Z.eqb whence 1 then len <- _get_readahead_len;; ret (pos - len)
               else ret pos);;
       rv <- as_IOError (fd <- fileno;; outside (lseek fd pos whence));;
       _clear_readahead_buf;;;
       ret rv).

Definition truncate (size : Z) : M state unit :=
  method "truncate"
    (flush;;;
     size <- (if Z.eqb size (-1) then tell else ret size);;
     rv <- as_IOError (fd <- fileno;; outside (ftruncate fd size));;
     seek size 0;;;
     ret rv).
End inherited.

Definition isatty : M state bool :=
  method "isatty"
    (as_IOError
       (fd <- fileno;;
        outside (fun d => (Return (tty (file d)), sys (os_isatty fd) d)))).
End GreenPipe.

(** ** guv/hubs/hub.py: the hub registry of one thread *)

Module hub.

(** A backend module [guv.hubs.<name>], with the class [Hub] it may hold. *)
Record backend := {
  backend_name : string;
  backend_Hub : option string;
}.

Inductive pyval :=
| NoneVal
| ModuleVal (m : backend)
| ClassVal (cls : string)
| InstanceVal (cls : string) (serial : nat).   (* the [serial]-th hub built *)

Record state := {
  _threadlocal : gmap string pyval;   (* attributes of the thread-local object *)
  importable : gmap string backend;   (* the modules [import_module] finds *)
  built : nat;                        (* hub instances constructed so far *)
}.

Definition set_threadlocal (f : gmap string pyval -> gmap string pyval)
    (s : state) : state :=
  {| _threadlocal := f (_threadlocal s); importable := importable s;
     built := built s |}.

(** [importlib.import_module('guv.hubs.{}'.format(name))] *)
Definition import_module (name : string) : M state backend :=
  s <- get;;
  match importable s !! name with
  | Some m => ret m
  | None => raise ImportError
  end.

Definition is_ImportError (e : exn) : bool :=
  match e with
  | ImportError => true
  | _ => false
  end.

(** The [for] loop of [get_default_hub] over the names still to try;
    falling out of it returns [None]. *)
Fixpoint get_default_hub_from (names : list string) : M state pyval :=
  match names with
  | [] => ret NoneVal
  | name :: rest =>
      r <- try_except
             (m <- import_module name;; ret (Some m))
             (fun e => if is_ImportError e then Some (ret None) else None);;
      match r with
      | Some m => ret (ModuleVal m)
      | None => get_default_hub_from rest
      end
  end.

Definition get_default_hub : M state pyval :=
  get_default_hub_from ["pyuv"; "epoll"].

(** [not mod] *)
Definition falsy (v : pyval) : bool :=
  match v with
  | NoneVal => true
  | _ => false
  end.

(** [mod.Hub] when [hasattr(mod, 'Hub')]. *)
Definition Hub_of (v : pyval) : option pyval :=
  match v with
  | ModuleVal m => ClassVal <$> backend_Hub m
  | _ => None
  end.

Definition use_hub (mod_ : pyval) : M state unit :=
  mod_ <- (if falsy mod_ then get_default_hub else ret mod_);;
  modify (set_threadlocal (fun tl =>
    match tl !! "hub" with
    | Some _ => delete "hub" tl
    | None => tl
    end));;;
  match Hub_of mod_ with
  | Some cls => modify (set_threadlocal (<["Hub" := cls]>))
  | None => modify (set_threadlocal (<["Hub" := mod_]>))
  end.

(** [v()]: a class builds a new instance; nothing else here is callable. *)
Definition construct (v : pyval) : M state pyval :=
  match v with
  | ClassVal cls =>
      s <- get;;
      put {| _threadlocal := _threadlocal s; importable := importable s;
             built := S (built s) |};;;
      ret (InstanceVal cls (built s))
  | _ => raise (TypeError "object is not callable")
  end.

Definition get_hub : M state pyval :=
  s <- get;;
  match _threadlocal s !! "hub" with
  | Some hub => ret hub
  | None =>
      (match _threadlocal s !! "Hub" with
       | Some _ => ret tt
       | None => use_hub NoneVal
       end);;;
      s <- get;;
      match _threadlocal s !! "Hub" with
      | Some Hub =>
          hub <- construct Hub;;
          modify (set_threadlocal (<["hub" := hub]>));;;
          ret hub
      | None => raise (AttributeError "Hub")
      end
  end.
End hub.

(** ** Sample worlds, used to run the model on concrete inputs *)

Module sample.

(** An OS on which every call succeeds at once and the hub always wakes
    the caller. *)
Definition quiet : oracle :=
  {| on_recv := fun _ => Gives [];
     on_send := fun _ => Gives 0;
     on_sendto := fun _ => Gives 0;
     on_connect := fun _ => Gives tt;
     on_connect_ex := fun _ => 0;
     on_SO_ERROR := fun _ => 0;
     on_accept := fun _ => Gives (4, ("peer"%string, 4000));
     on_read := fun _ => Gives [];
     on_write := fun _ => Gives 0;
     on_close := fun _ => Gives tt;
     on_trampoline := fun _ => Ready;
     on_time := fun _ => 0%float |}.

Definition with_recv (f : nat -> reply bytes) (o : oracle) : oracle :=
  {| on_recv := f; on_send := on_send o; on_sendto := on_sendto o;
     on_connect := on_connect o; on_connect_ex := on_connect_ex o;
     on_SO_ERROR := on_SO_ERROR o; on_accept := on_accept o;
     on_read := on_read o; on_write := on_write o; on_close := on_close o;
     on_trampoline := on_trampoline o; on_time := on_time o |}.

Definition with_connect_ex (f : nat -> Z) (o : oracle) : oracle :=
  {| on_recv := on_recv o; on_send := on_send o; on_sendto := on_sendto o;
     on_connect := on_connect o; on_connect_ex := f;
     on_SO_ERROR := on_SO_ERROR o; on_accept := on_accept o;
     on_read := on_read o; on_write := on_write o; on_close := on_close o;
     on_trampoline := on_trampoline o; on_time := on_time o |}.

Definition with_write (f : nat -> reply Z) (o : oracle) : oracle :=
  {| on_recv := on_recv o; on_send := on_send o; on_sendto := on_sendto o;
     on_connect := on_connect o; on_connect_ex := on_connect_ex o;
     on_SO_ERROR := on_SO_ERROR o; on_accept := on_accept o;
     on_read := on_read o; on_write := f; on_close := on_close o;
     on_trampoline := on_trampoline o; on_time := on_time o |}.

Definition with_trampoline (f : nat -> wakeup) (o : oracle) : oracle :=
  {| on_recv := on_recv o; on_send := on_send o; on_sendto := on_sendto o;
     on_connect := on_connect o; on_connect_ex := on_connect_ex o;
     on_SO_ERROR := on_SO_ERROR o; on_accept := on_accept o;
     on_read := on_read o; on_write := on_write o; on_close := on_close o;
     on_trampoline := f; on_time := on_time o |}.

Definition posix (o : oracle) : world :=
  {| sys_platform := Posix; getdefaulttimeout := None; answers := o; trace := [] |}.

(** A fresh suspending socket on descriptor 3, no deadline. *)
Definition green : GreenSocket.t :=
  {| GreenSocket.sock := 3; GreenSocket.act_non_blocking := false;
     GreenSocket._timeout := None; GreenSocket._closed := false |}.

(** A fresh duck socket on descriptor 5. *)
Definition duck : _SocketDuckForFd.t :=
  {| _SocketDuckForFd._fileno := 5; _SocketDuckForFd._refcount := 0;
     _SocketDuckForFd._closed := false |}.

Definition localhost : address := ("127.0.0.1"%string, 8080).
End sample.

(** [m] called [n] times in a row. *)
Fixpoint times {S} (n : nat) (m : M S unit) : M S unit :=
  match n with
  | O => ret tt
  | S n' => m;;; times n' m
  end.

(** * Properties *)

(** ** Floats: the three comparisons of [settimeout] *)

Section float_facts.
Local Open Scope float_scope.

Lemma Prim2SF_zero : Prim2SF 0 = S754_zero false.
Proof. reflexivity. Qed.

Lemma float_pos_not_neg (t : float) :
  PrimFloat.ltb 0 t = true -> PrimFloat.ltb t 0 = false.
Proof.
  rewrite !FloatAxioms.ltb_spec, Prim2SF_zero. unfold SFltb.
  destruct (Prim2SF t) as [s | [|] | | [|] m e]; simpl; congruence.
Qed.

Lemma float_pos_not_zero (t : float) :
  PrimFloat.ltb 0 t = true -> PrimFloat.eqb t 0 = false.
Proof.
  rewrite FloatAxioms.ltb_spec, FloatAxioms.eqb_spec, Prim2SF_zero. unfold SFltb, SFeqb.
  destruct (Prim2SF t) as [s | [|] | | [|] m e]; simpl; congruence.
Qed.

Lemma float_zero_not_neg (t : float) :
  PrimFloat.eqb t 0 = true -> PrimFloat.ltb t 0 = false.
Proof.
  rewrite FloatAxioms.ltb_spec, FloatAxioms.eqb_spec, Prim2SF_zero. unfold SFltb, SFeqb.
  destruct (Prim2SF t) as [s | [|] | | [|] m e]; simpl; congruence.
Qed.
End float_facts.

(** ** Blocking mode and timeouts of a green socket *)

Section modes.
Import GreenSocket.

(** The socket [g] with its mode and timeout replaced. *)
Definition in_mode (non_blocking : bool) (timeout : option float) (g : t) : t :=
  {| sock := sock g; act_non_blocking := non_blocking; _timeout := timeout;
     _closed := _closed g |}.

Lemma setblocking_run (flag : bool) (g : t) (w : world) :
  setblocking flag (g, w) =
  (Return tt, (if flag then in_mode false None g
               else in_mode true (Some 0%float) g, w)).
Proof. destruct flag; reflexivity. Qed.

Lemma settimeout_zero_run (z : float) (g : t) (w : world) :
  PrimFloat.eqb z 0 = true ->
  settimeout (PyNumber z) (g, w) = (Return tt, (in_mode true (Some 0%float) g, w)).
Proof.
  intros Hz. unfold settimeout.
  rewrite (float_zero_not_neg z Hz), Hz. reflexivity.
Qed.

(** C8: [settimeout] raises [ValueError] for every negative duration and
    [TypeError] for every argument without [__float__], leaving socket and
    world as they were; [settimeout(0)] and [setblocking(False)] give the
    non-suspending mode with timeout 0; [settimeout(t)] for [t > 0] gives the
    suspending mode with [gettimeout() = t]; [setblocking(True)] gives the
    suspending mode with timeout [None]. *)
Theorem settimeout_setblocking_modes (g : t) (w : world) :
  (forall d : float, PrimFloat.ltb d 0 = true ->
     settimeout (PyNumber d) (g, w)
     = (Raise (ValueError "Timeout value out of range"), (g, w)))
  /\ (forall repr : string,
        settimeout (PyOther repr) (g, w)
        = (Raise (TypeError "a float is required"), (g, w)))
  /\ (forall z : float, PrimFloat.eqb z 0 = true ->
        settimeout (PyNumber z) (g, w)
        = (Return tt, (in_mode true (Some 0%float) g, w)))
  /\ setblocking false (g, w) = (Return tt, (in_mode true (Some 0%float) g, w))
  /\ (forall d : float, PrimFloat.ltb 0 d = true ->
        settimeout (PyNumber d) (g, w) = (Return tt, (in_mode false (Some d) g, w))
        /\ fst (gettimeout (in_mode false (Some d) g, w)) = Return (Some d))
  /\ setblocking true (g, w) = (Return tt, (in_mode false None g, w)).
Proof.
  split; [| split; [| split; [| split; [| split]]]].
  - intros d Hd. unfold settimeout. rewrite Hd. reflexivity.
  - reflexivity.
  - intros z Hz. apply settimeout_zero_run, Hz.
  - apply (setblocking_run false).
  - intros d Hd. split; [| reflexivity]. unfold settimeout.
    rewrite (float_pos_not_neg d Hd), (float_pos_not_zero d Hd). reflexivity.
  - apply (setblocking_run true).
Qed.

Lemma settimeout_setblocking_modes_witness :
  settimeout (PyNumber (-2.5)%float) (sample.green, sample.posix sample.quiet)
  = (Raise (ValueError "Timeout value out of range"),
     (sample.green, sample.posix sample.quiet))
  /\ settimeout (PyNumber (-0)%float) (sample.green, sample.posix sample.quiet)
     = (Return tt, (in_mode true (Some 0%float) sample.green, sample.posix sample.quiet))
  /\ settimeout (PyNumber 1.5%float) (sample.green, sample.posix sample.quiet)
     = (Return tt, (in_mode false (Some 1.5%float) sample.green,
                    sample.posix sample.quiet)).
Proof.
  destruct (settimeout_setblocking_modes sample.green (sample.posix sample.quiet))
    as (Hneg & _ & Hzero & _ & Hpos & _).
  split; [apply Hneg; reflexivity |].
  split; [apply Hzero; reflexivity |].
  apply Hpos; reflexivity.
Defined.
End modes.

(** ** Traces *)

Lemma since_log (w : world) (e : event) : since w (log e w) = [e].
Proof. unfold since, log; simpl. apply drop_app_length. Qed.

Lemma since_log2 (w : world) (e1 e2 : event) :
  since w (log e2 (log e1 w)) = [e1; e2].
Proof.
  unfold since, log; simpl. rewrite <- app_assoc. apply drop_app_length.
Qed.

Lemma since_refl (w : world) : since w w = [].
Proof. unfold since. apply drop_all. Qed.

Lemma now_log (w : world) (e : event) : now (log e w) = S (now w).
Proof. unfold now, log; simpl. rewrite length_app; simpl. lia. Qed.

(** ** The non-suspending mode of a green socket *)

Section bypass.
Import GreenSocket.

(** What the OS answered, as the outcome of the method. *)
Definition outcome {A B} (f : A -> B) (r : reply A) : result B :=
  match r with
  | Gives a => Return (f a)
  | Throws e => Raise e
  end.

Lemma recv_non_blocking (g : t) (w : world) (fuel : nat) (buflen flags : Z) :
  act_non_blocking g = true ->
  recv fuel buflen flags (g, w)
  = (outcome PyBytes (on_recv (answers w) (now w)),
     (g, log (sock_recv (sock g) buflen flags) w)).
Proof.
  intros Hnb. unfold recv, bind, self, outside, call; simpl. rewrite Hnb; simpl.
  destruct (on_recv (answers w) (now w)); reflexivity.
Qed.

Lemma send_non_blocking (g : t) (w : world) (fuel : nat) (data : bytes) (flags : Z) :
  act_non_blocking g = true ->
  send fuel data flags (g, w)
  = (outcome id (on_send (answers w) (now w)),
     (g, log (sock_send (sock g) data flags) w)).
Proof.
  intros Hnb. unfold send, _old_send, bind, self, outside, call; simpl.
  rewrite Hnb; simpl.
  destruct (on_send (answers w) (now w)); reflexivity.
Qed.

Lemma connect_non_blocking (g : t) (w : world) (fuel : nat) (addr : address) :
  act_non_blocking g = true ->
  connect fuel addr (g, w)
  = (outcome id (on_connect (answers w) (now w)),
     (g, log (sock_connect (sock g) addr) w)).
Proof.
  intros Hnb. unfold connect, bind, self, outside, call; simpl. rewrite Hnb; simpl.
  destruct (on_connect (answers w) (now w)); reflexivity.
Qed.

Lemma accept_non_blocking (g : t) (w : world) (fuel : nat) :
  act_non_blocking g = true ->
  accept fuel (g, w)
  = (outcome (fun r => Plain (fst r) (snd r)) (on_accept (answers w) (now w)),
     (g, log (sock_accept (sock g)) w)).
Proof.
  intros Hnb. unfold accept, bind, self, outside, call; simpl. rewrite Hnb; simpl.
  destruct (on_accept (answers w) (now w)); reflexivity.
Qed.

Lemma outcome_not_OutOfFuel {A B} (f : A -> B) (r : reply A) :
  outcome f r <> OutOfFuel.
Proof. destruct r; discriminate. Qed.

(** The run [run] from [s] made exactly one call on the wrapped socket, never
    waited on the hub, and ended. *)
Definition one_os_call_no_wait {A} (s : state) (run : result A * state) : Prop :=
  count is_sock_call (since (snd s) (snd (snd run))) = 1%nat
  /\ count is_trampoline (since (snd s) (snd (snd run))) = 0%nat
  /\ fst run <> OutOfFuel
  /\ fst (snd run) = fst s.

(** [s] is what [setblocking(False)] or [settimeout(0)] made of [s0]. *)
Definition entered_non_suspending (s0 s : state) : Prop :=
  s = snd (setblocking false s0)
  \/ exists z : float, PrimFloat.eqb z 0 = true /\ s = snd (settimeout (PyNumber z) s0).

Lemma entered_non_suspending_flag (s0 s : state) :
  entered_non_suspending s0 s -> act_non_blocking (fst s) = true.
Proof.
  destruct s0 as [g0 w0]. intros [-> | (z & Hz & ->)].
  - rewrite setblocking_run. reflexivity.
  - rewrite (settimeout_zero_run z g0 w0 Hz). reflexivity.
Qed.

(** C3: once [setblocking(False)] or [settimeout(0)] was called, in every
    later state in which the mode is still the one that call left, each of
    [recv], [send], [connect] and [accept] makes exactly one call on the
    wrapped OS socket and never calls the trampoline, whatever the OS
    answers; and none of them changes the socket object, so the mode stays. *)
Theorem non_blocking_bypass (s0 s later : state) (fuel : nat) (buflen flags : Z)
    (data : bytes) (addr : address) :
  entered_non_suspending s0 s ->
  act_non_blocking (fst later) = act_non_blocking (fst s) ->
  one_os_call_no_wait later (recv fuel buflen flags later)
  /\ one_os_call_no_wait later (send fuel data flags later)
  /\ one_os_call_no_wait later (connect fuel addr later)
  /\ one_os_call_no_wait later (accept fuel later).
Proof.
  intros Hs Hlater. apply entered_non_suspending_flag in Hs.
  rewrite Hs in Hlater. clear Hs s0 s. destruct later as [g w].
  simpl in Hlater. unfold one_os_call_no_wait.
  rewrite (recv_non_blocking g w fuel buflen flags Hlater),
    (send_non_blocking g w fuel data flags Hlater),
    (connect_non_blocking g w fuel addr Hlater),
    (accept_non_blocking g w fuel Hlater); simpl.
  rewrite !since_log.
  repeat split; try reflexivity; apply outcome_not_OutOfFuel.
Qed.

Lemma non_blocking_bypass_witness :
  let s0 := (sample.green, sample.posix sample.quiet) in
  let s := snd (setblocking false s0) in
  let later := snd (recv 0 1024 0 s) in
  one_os_call_no_wait s (recv 0 1024 0 s)
  /\ one_os_call_no_wait later (accept 0 later).
Proof.
  intros s0 s later. split.
  - apply (non_blocking_bypass s0 s s 0 1024 0 [] sample.localhost);
      [left |]; reflexivity.
  - apply (non_blocking_bypass s0 s later 0 1024 0 [] sample.localhost);
      [left |]; reflexivity.
Defined.
End bypass.

(** ** Waiting on the hub from a green socket *)

Section waits.
Import GreenSocket.

Lemma trampoline_closed_socket (g : t) (w : world) fd rd wr timeout exc :
  _closed g = true ->
  _trampoline fd rd wr timeout exc (g, w) = (Raise IOClosed, (g, w)).
Proof.
  intros Hc. unfold _trampoline, bind, self; simpl. rewrite Hc. reflexivity.
Qed.

Lemma trampoline_open_socket (g : t) (w : world) fd rd wr timeout exc :
  _closed g = false ->
  _trampoline fd rd wr timeout exc (g, w)
  = let w' := log (hub_trampoline fd rd wr timeout exc) w in
    match on_trampoline (answers w) (now w), timeout with
    | Closed, _ => (Raise IOClosed, (set_closed true g, w'))
    | Elapsed, Some _ =>
        let e := default HubTimeout exc in
        (Raise e, (if is_IOClosed e then set_closed true g else g, w'))
    | _, _ => (Return tt, (g, w'))
    end.
Proof.
  intros Hc. unfold _trampoline, bind, self; simpl. rewrite Hc.
  unfold try_except, outside, trampoline; simpl.
  destruct (on_trampoline (answers w) (now w)), timeout as [d|]; simpl;
    try reflexivity.
  destruct exc as [[]|]; reflexivity.
Qed.

(** On a socket already marked closed, [sendto] neither waits on the hub nor
    calls the OS; and when the hub answers the wait with the closed signal,
    the OS [sendto] is never called. *)
Lemma sendto_on_closed_socket :
  let g := set_closed true sample.green in
  let w := sample.posix sample.quiet in
  let run := sendto [] sample.localhost (g, w) in
  let w' := sample.posix (sample.with_trampoline (fun _ => Closed) sample.quiet) in
  let run' := sendto [] sample.localhost (sample.green, w') in
  (fst run = Raise IOClosed
   /\ count is_trampoline (since w (snd (snd run))) = 0%nat
   /\ count is_sock_call (since w (snd (snd run))) = 0%nat)
  /\ (fst run' = Raise IOClosed
      /\ count is_trampoline (since w' (snd (snd run'))) = 1%nat
      /\ count is_sock_call (since w' (snd (snd run'))) = 0%nat).
Proof. repeat split. Qed.

(** C10, amended: on a socket not marked closed, [sendto] waits on the hub
    exactly once, for write readiness and without deadline, whatever
    [act_non_blocking] and the timeout are; when the wait ends otherwise than
    by the closed signal, exactly one OS [sendto] follows and its answer is
    the outcome; the closed signal marks the socket closed and propagates,
    and no OS call is made. On a socket already marked closed, [sendto]
    raises the closed signal with no wait on the hub and no OS call: socket
    and trace are as before. *)
Theorem sendto_waits_once (g : t) (w : world) (data : bytes) (addr : address) :
  let wait := hub_trampoline (sock g) false true None None in
  let w1 := log wait w in
  (_closed g = false ->
   sendto data addr (g, w)
   = match on_trampoline (answers w) (now w) with
     | Closed => (Raise IOClosed, (set_closed true g, w1))
     | _ => (outcome id (on_sendto (answers w) (S (now w))),
             (g, log (sock_sendto (sock g) data addr) w1))
     end)
  /\ (_closed g = true ->
      sendto data addr (g, w) = (Raise IOClosed, (g, w))
      /\ since w (snd (snd (sendto data addr (g, w)))) = []).
Proof.
  intros wait w1. split.
  - intros Hc. unfold sendto, fileno, bind at 1 2, self at 1, ret; simpl.
    unfold bind at 1. rewrite (trampoline_open_socket g w _ _ _ _ _ Hc).
    fold wait; simpl; fold w1.
    assert (Hgo : (let (r, s') := (Return tt, (g, w1)) : result unit * state in
                   match r with
                   | Return _ =>
                       bind self (fun s => outside
                         (call (sock_sendto (sock s) data addr) on_sendto)) s'
                   | Raise e => (Raise e, s')
                   | OutOfFuel => (OutOfFuel, s')
                   end)
                  = (outcome id (on_sendto (answers w) (S (now w))),
                     (g, log (sock_sendto (sock g) data addr) w1))).
    { simpl. unfold bind, self, outside, call; simpl.
      replace (now w1) with (S (now w)) by (symmetry; apply now_log).
      destruct (on_sendto (answers w) (S (now w))); reflexivity. }
    destruct (on_trampoline (answers w) (now w)); first [exact Hgo | reflexivity].
  - intros Hc.
    assert (Hrun : sendto data addr (g, w) = (Raise IOClosed, (g, w))).
    { unfold sendto, fileno, bind at 1 2, self at 1, ret; simpl.
      unfold bind at 1. rewrite (trampoline_closed_socket g w _ _ _ _ _ Hc).
      reflexivity. }
    rewrite Hrun. split; [reflexivity | apply since_refl].
Qed.

Lemma sendto_waits_once_witness :
  let g := in_mode true (Some 0%float) sample.green in
  let w := sample.posix sample.quiet in
  sendto [] sample.localhost (g, w)
  = (Return 0,
     (g, log (sock_sendto 3 [] sample.localhost)
           (log (hub_trampoline 3 false true None None) w)))
  /\ sendto [] sample.localhost (set_closed true g, w)
     = (Raise IOClosed, (set_closed true g, w)).
Proof.
  intros g w. split.
  - apply (sendto_waits_once g w [] sample.localhost). reflexivity.
  - apply (sendto_waits_once (set_closed true g) w [] sample.localhost).
    reflexivity.
Defined.
End waits.

(** ** [recv] in the suspending mode *)

Section recv_facts.
Import GreenSocket.

Lemma recv_is_loop (g : t) (w : world) (fuel : nat) (buflen flags : Z) :
  act_non_blocking g = false ->
  recv fuel buflen flags (g, w)
  = recv_loop fuel (sys_platform w) (sock g) buflen flags (g, w).
Proof.
  intros Hnb. unfold recv, bind, self, the_world; simpl. rewrite Hnb. reflexivity.
Qed.

(** The wait of [recv]: read readiness, bounded by the logical timeout. *)
Definition recv_wait (g : t) : event :=
  hub_trampoline (sock g) true false (_timeout g) (Some timed_out).

(** One round of the loop, by what the OS and then the hub answer. *)
Lemma recv_round (g : t) (w : world) (fuel : nat) (buflen flags : Z) :
  act_non_blocking g = false ->
  let w1 := log (sock_recv (sock g) buflen flags) w in
  let w2 := log (recv_wait g) w1 in
  recv (S fuel) buflen flags (g, w)
  = match on_recv (answers w) (now w) with
    | Gives b => (Return (PyBytes b), (g, w1))
    | Throws e =>
        if is_socket_error e then
          if errno_in (get_errno e) (SOCKET_BLOCKING (sys_platform w)) then
            if _closed g then (Raise EOFError, (g, w1))
            else
              match on_trampoline (answers w) (S (now w)), _timeout g with
              | Closed, _ => (Raise EOFError, (set_closed true g, w2))
              | Elapsed, Some _ => (Raise timed_out, (g, w2))
              | _, _ => recv fuel buflen flags (g, w2)
              end
          else if errno_in (get_errno e) (SOCKET_CLOSED (sys_platform w)) then
            (Return (PyStr ""), (g, w1))
          else (Raise e, (g, w1))
        else (Raise e, (g, w1))
    end.
Proof.
  intros Hnb w1 w2. rewrite (recv_is_loop g w (S fuel) buflen flags Hnb).
  assert (Hretry : recv fuel buflen flags (g, w2)
                   = recv_loop fuel (sys_platform w) (sock g) buflen flags (g, w2))
    by (rewrite (recv_is_loop g w2 fuel buflen flags Hnb); reflexivity).
  rewrite Hretry. clear Hretry.
  cbn [recv_loop]. unfold bind at 1. unfold try_except at 1.
  unfold bind at 1, outside at 1, call; cbn [snd fst].
  destruct (on_recv (answers w) (now w)) as [b | e]; [reflexivity |].
  fold w1. unfold recv_handler. destruct (is_socket_error e); [| reflexivity].
  destruct (errno_in (get_errno e) (SOCKET_BLOCKING (sys_platform w)));
    [| destruct (errno_in (get_errno e) (SOCKET_CLOSED (sys_platform w)));
       reflexivity].
  unfold ret at 1. unfold fileno, gettimeout, bind at 1 2 3 4, self at 1 2, ret at 1 2.
  cbn [fst snd]. unfold bind at 1, closed_as, try_except at 1.
  destruct (_closed g) eqn:Hc.
  - rewrite (trampoline_closed_socket g w1 _ _ _ _ _ Hc). reflexivity.
  - rewrite (trampoline_open_socket g w1 _ _ _ _ _ Hc). cbn zeta.
    replace (now w1) with (S (now w)) by (symmetry; apply now_log).
    fold (recv_wait g). fold w2. change (answers w1) with (answers w).
    destruct (on_trampoline (answers w) (S (now w))), (_timeout g); reflexivity.
Qed.
End recv_facts.

Section recv_claim.
Import GreenSocket.

Lemma errno_in_socket_error (e : exn) (s : list Z) :
  errno_in (get_errno e) s = true -> is_socket_error e = true.
Proof. destruct e as [[]|[]| | | | | | | |]; simpl; congruence. Qed.

(** The two tables never overlap, so the order of the two tests in [recv]
    does not matter. *)
Lemma closed_not_blocking (p : platform) (c : option Z) :
  errno_in c (SOCKET_CLOSED p) = true -> errno_in c (SOCKET_BLOCKING p) = false.
Proof.
  destruct c as [c|]; [| reflexivity]. unfold errno_in, py_in.
  rewrite bool_decide_eq_true, bool_decide_eq_false.
  destruct p; cbn; rewrite !elem_of_cons, !elem_of_nil;
    unfold errno.ECONNRESET, errno.ENOTCONN, errno.ESHUTDOWN, errno.EPIPE,
      errno.EAGAIN, errno.EWOULDBLOCK; lia.
Qed.

(** C1: [recv] in the suspending mode, by the answer of the OS. A would-block
    error suspends for read readiness, bounded by the logical timeout, and a
    wake-up retries; a peer-closed error returns the empty string and does not
    raise; any other error propagates unchanged; the closed signal during the
    wait (or a socket already marked closed) gives [EOFError]. In the
    non-suspending mode [recv] is the OS [recv]. *)
Theorem recv_suspend_retry_eof (g : t) (w : world) (fuel : nat) (buflen flags : Z) :
  let p := sys_platform w in
  let w1 := log (sock_recv (sock g) buflen flags) w in
  let w2 := log (hub_trampoline (sock g) true false (_timeout g) (Some timed_out)) w1 in
  let hub := on_trampoline (answers w) (S (now w)) in
  (act_non_blocking g = true ->
     recv fuel buflen flags (g, w)
     = (outcome PyBytes (on_recv (answers w) (now w)), (g, w1)))
  /\ (act_non_blocking g = false ->
      (forall b, on_recv (answers w) (now w) = Gives b ->
         recv (S fuel) buflen flags (g, w) = (Return (PyBytes b), (g, w1)))
      /\ (forall e, on_recv (answers w) (now w) = Throws e ->
          (errno_in (get_errno e) (SOCKET_BLOCKING p) = true ->
             (_closed g = false -> hub = Ready ->
                recv (S fuel) buflen flags (g, w) = recv fuel buflen flags (g, w2))
             /\ (_closed g = false -> hub = Elapsed ->
                 recv (S fuel) buflen flags (g, w)
                 = match _timeout g with
                   | Some _ => (Raise timed_out, (g, w2))
                   | None => recv fuel buflen flags (g, w2)
                   end)
             /\ (_closed g = false -> hub = Closed ->
                 recv (S fuel) buflen flags (g, w)
                 = (Raise EOFError, (set_closed true g, w2)))
             /\ (_closed g = true ->
                 recv (S fuel) buflen flags (g, w) = (Raise EOFError, (g, w1))))
          /\ (errno_in (get_errno e) (SOCKET_CLOSED p) = true ->
              recv (S fuel) buflen flags (g, w) = (Return (PyStr ""), (g, w1)))
          /\ (errno_in (get_errno e) (SOCKET_BLOCKING p) = false ->
              errno_in (get_errno e) (SOCKET_CLOSED p) = false ->
              recv (S fuel) buflen flags (g, w) = (Raise e, (g, w1))))).
Proof.
  intros p w1 w2 hub. split; [apply recv_non_blocking |].
  intros Hnb. pose proof (recv_round g w fuel buflen flags Hnb) as Hround.
  cbn zeta in Hround. fold w1 w2 hub p in Hround. unfold recv_wait in Hround.
  fold w2 in Hround.
  split.
  - intros b Hb. rewrite Hround, Hb. reflexivity.
  - intros e He. rewrite He in Hround. split; [| split].
    + intros Hblock. rewrite (errno_in_socket_error _ _ Hblock), Hblock in Hround.
      repeat split; intros Hc; try intros Hhub; rewrite Hround, Hc;
        try rewrite Hhub; reflexivity.
    + intros Hclosed.
      rewrite (errno_in_socket_error _ _ Hclosed),
        (closed_not_blocking _ _ Hclosed), Hclosed in Hround.
      exact Hround.
    + intros Hnoblock Hnoclosed. rewrite Hnoblock, Hnoclosed in Hround.
      destruct (is_socket_error e); exact Hround.
Qed.
(** A peer that first makes the socket wait, then resets the connection. *)
Definition busy_then_reset : world :=
  sample.posix
    (sample.with_recv
       (fun n => match n with
                 | O => Throws (socket_error errno.EAGAIN)
                 | _ => Throws (socket_error errno.ECONNRESET)
                 end)
       sample.quiet).

Lemma recv_suspend_retry_eof_witness :
  let w2 := log (hub_trampoline 3 true false None (Some timed_out))
              (log (sock_recv 3 1024 0) busy_then_reset) in
  recv 2 1024 0 (sample.green, busy_then_reset) = recv 1 1024 0 (sample.green, w2)
  /\ recv 1 1024 0 (sample.green, w2)
     = (Return (PyStr ""), (sample.green, log (sock_recv 3 1024 0) w2)).
Proof.
  intros w2. split.
  - destruct (recv_suspend_retry_eof sample.green busy_then_reset 1 1024 0)
      as [_ Hsusp].
    destruct (Hsusp eq_refl) as [_ Herr].
    destruct (Herr (socket_error errno.EAGAIN) eq_refl) as [Hblock _].
    destruct (Hblock eq_refl) as [Hretry _].
    exact (Hretry eq_refl eq_refl).
  - destruct (recv_suspend_retry_eof sample.green w2 0 1024 0) as [_ Hsusp].
    destruct (Hsusp eq_refl) as [_ Herr].
    destruct (Herr (socket_error errno.ECONNRESET) eq_refl) as (_ & Hreset & _).
    exact (Hreset eq_refl).
Defined.
End recv_claim.

(** ** [recv] ends once the OS has data *)

Section recv_converges.
Import GreenSocket.

(** The world with further events on its trace. *)
Definition extend (l : list event) (w : world) : world :=
  {| sys_platform := sys_platform w;
     getdefaulttimeout := getdefaulttimeout w;
     answers := answers w;
     trace := trace w ++ l |}.

Lemma log_extend (e : event) (l : list event) (w : world) :
  log e (extend l w) = extend (l ++ [e]) w.
Proof. unfold log, extend; cbn. rewrite <- app_assoc. reflexivity. Qed.

Lemma extend_nil (w : world) : extend [] w = w.
Proof. destruct w. unfold extend; cbn. rewrite app_nil_r. reflexivity. Qed.

Lemma now_extend (l : list event) (w : world) :
  now (extend l w) = (now w + length l)%nat.
Proof. unfold now, extend; cbn. apply length_app. Qed.

(** The events of [n] rounds that wait, then one [recv] that succeeds. *)
Fixpoint rounds (n : nat) (g : t) (buflen flags : Z) : list event :=
  match n with
  | O => [sock_recv (sock g) buflen flags]
  | S n' => sock_recv (sock g) buflen flags :: recv_wait g :: rounds n' g buflen flags
  end.

Lemma count_cons (p : event -> bool) (e : event) (t : list event) :
  count p (e :: t) = ((if p e then 1 else 0) + count p t)%nat.
Proof.
  unfold count. rewrite filter_cons. destruct (p e).
  - rewrite decide_True by reflexivity. reflexivity.
  - rewrite decide_False by discriminate. reflexivity.
Qed.

Lemma rounds_waits (n : nat) (g : t) (buflen flags : Z) :
  count is_trampoline (rounds n g buflen flags) = n
  /\ count is_sock_call (rounds n g buflen flags) = S n.
Proof.
  induction n as [| n [IHw IHc]]; [split; reflexivity |].
  cbn [rounds]. rewrite !count_cons, IHw, IHc. split; reflexivity.
Qed.

(** The [i]-th external call is an OS [recv] that would block. *)
Definition would_block (w : world) (i : nat) : Prop :=
  exists e, on_recv (answers w) i = Throws e
            /\ errno_in (get_errno e) (SOCKET_BLOCKING (sys_platform w)) = true.

(** After [n] would-block answers, each followed by a wake-up, and then
    data, [recv] with fuel for [n + 1] rounds returns the data, having waited
    on the hub exactly [n] times. *)
Lemma recv_converges (n : nat) (g : t) (buflen flags : Z) (b : bytes) :
  act_non_blocking g = false ->
  _closed g = false ->
  forall (l : list event) (w : world),
    (forall i, (i < n)%nat ->
       would_block w (now w + length l + 2 * i)%nat
       /\ on_trampoline (answers w) (now w + length l + 2 * i + 1)%nat = Ready) ->
    on_recv (answers w) (now w + length l + 2 * n)%nat = Gives b ->
    recv (S n) buflen flags (g, extend l w)
    = (Return (PyBytes b), (g, extend (l ++ rounds n g buflen flags) w)).
Proof.
  intros Hnb Hc. induction n as [| n IH]; intros l w Hblock Hdata.
  - rewrite (recv_round g (extend l w) 0 buflen flags Hnb). cbn zeta.
    rewrite now_extend. change (answers (extend l w)) with (answers w).
    replace (now w + length l)%nat with (now w + length l + 2 * 0)%nat by lia.
    rewrite Hdata, log_extend. reflexivity.
  - rewrite (recv_round g (extend l w) (S n) buflen flags Hnb). cbn zeta.
    rewrite now_extend. change (answers (extend l w)) with (answers w).
    change (sys_platform (extend l w)) with (sys_platform w).
    destruct (Hblock 0%nat ltac:(lia)) as [(e & He & Hblk) Hready].
    replace (now w + length l + 2 * 0)%nat with (now w + length l)%nat in * by lia.
    rewrite He, (errno_in_socket_error _ _ Hblk), Hblk, Hc.
    replace (S (now w + length l)) with (now w + length l + 1)%nat by lia.
    rewrite Hready. rewrite !log_extend.
    assert (Hrest : recv (S n) buflen flags
                      (g, extend ((l ++ [sock_recv (sock g) buflen flags])
                                    ++ [recv_wait g]) w)
                    = (Return (PyBytes b),
                       (g, extend (((l ++ [sock_recv (sock g) buflen flags])
                                      ++ [recv_wait g]) ++ rounds n g buflen flags) w))).
    { apply IH.
      - intros i Hi. rewrite !length_app; cbn [length].
        destruct (Hblock (S i) ltac:(lia)) as [Hb Hr]. split.
        + replace (now w + (length l + 1 + 1) + 2 * i)%nat
            with (now w + length l + 2 * S i)%nat by lia. exact Hb.
        + replace (now w + (length l + 1 + 1) + 2 * i + 1)%nat
            with (now w + length l + 2 * S i + 1)%nat by lia. exact Hr.
      - rewrite !length_app; cbn [length].
        replace (now w + (length l + 1 + 1) + 2 * n)%nat
          with (now w + length l + 2 * S n)%nat by lia. exact Hdata. }
    destruct (_timeout g); rewrite Hrest; cbn [rounds];
      rewrite <- !app_assoc; reflexivity.
Qed.
End recv_converges.

(** ** [connect_ex] *)

Section connect_ex_facts.
Import GreenSocket.

Lemma socket_connect_run (p : platform) (fd : Z) (addr : address) (w : world) :
  socket_connect p fd addr w
  = let err := on_connect_ex (answers w) (now w) in
    let w1 := log (sock_connect_ex fd addr) w in
    if py_in err (CONNECT_ERR p) then (Return false, w1)
    else if py_in err CONNECT_SUCCESS then (Return true, w1)
    else (Raise (socket_error err), w1).
Proof.
  unfold socket_connect, bind, ask; simpl.
  destruct (py_in _ (CONNECT_ERR p)); [reflexivity |].
  destruct (py_in _ CONNECT_SUCCESS); reflexivity.
Qed.

(** C2, the branch without deadline: [socket_connect] is the loop condition,
    outside the [try], so a hard connect error leaves [connect_ex] as an
    exception, and a success leaves it through the end of the method, with
    [None] and not [0]. *)
Theorem connect_ex_without_deadline (g : t) (w : world) (fuel : nat) (addr : address) :
  act_non_blocking g = false ->
  _timeout g = None ->
  let err := on_connect_ex (answers w) (now w) in
  let w1 := log (sock_connect_ex (sock g) addr) w in
  py_in err (CONNECT_ERR (sys_platform w)) = false ->
  connect_ex (S fuel) addr (g, w)
  = if py_in err CONNECT_SUCCESS then (Return None, (g, w1))
    else (Raise (socket_error err), (g, w1)).
Proof.
  intros Hnb Hto err w1 Herr.
  unfold connect_ex, bind at 1, self at 1; cbn [fst snd]. rewrite Hnb.
  unfold the_world, fileno, gettimeout, bind at 1 2 3 4 5, self, ret; cbn [fst snd].
  rewrite Hto. cbn [connect_ex_forever]. unfold bind at 1, outside at 1.
  cbn [fst snd]. rewrite socket_connect_run. cbn zeta. fold err w1.
  rewrite Herr. destruct (py_in err CONNECT_SUCCESS); reflexivity.
Qed.

(** The OS refuses the connection. *)
Definition refusing : world :=
  sample.posix (sample.with_connect_ex (fun _ => errno.ECONNREFUSED) sample.quiet).

Lemma connect_ex_without_deadline_witness :
  connect_ex 1 sample.localhost (sample.green, refusing)
  = (Raise (socket_error errno.ECONNREFUSED),
     (sample.green, log (sock_connect_ex 3 sample.localhost) refusing))
  /\ connect_ex 1 sample.localhost (sample.green, sample.posix sample.quiet)
     = (Return None,
        (sample.green,
         log (sock_connect_ex 3 sample.localhost) (sample.posix sample.quiet))).
Proof.
  split.
  - apply (connect_ex_without_deadline sample.green refusing 0 sample.localhost);
      reflexivity.
  - apply (connect_ex_without_deadline sample.green (sample.posix sample.quiet)
             0 sample.localhost); reflexivity.
Defined.

(** The sibling branch, with a deadline, on the same refusal: the error code
    is returned. *)
Lemma connect_ex_with_deadline_refused :
  fst (connect_ex 1 sample.localhost
         (in_mode false (Some 1.5%float) sample.green, refusing))
  = Return (Some errno.ECONNREFUSED).
Proof. reflexivity. Qed.

Lemma connect_ex_with_deadline_success :
  fst (connect_ex 1 sample.localhost
         (in_mode false (Some 1.5%float) sample.green, sample.posix sample.quiet))
  = Return (Some 0).
Proof. reflexivity. Qed.
End connect_ex_facts.

(** ** Which exceptions a method body can raise *)

Section raises.
Context {S : Type}.

Definition raises_only {A} (P : exn -> bool) (m : M S A) : Prop :=
  forall s e, fst (m s) = Raise e -> P e = true.

Lemma raises_only_ret {A} (P : exn -> bool) (a : A) : raises_only P (ret a).
Proof. intros s e; discriminate. Qed.

Lemma raises_only_raise {A} (P : exn -> bool) (e : exn) :
  P e = true -> raises_only P (@raise S A e).
Proof. intros He s e' [= <-]. exact He. Qed.

Lemma raises_only_bind {A B} (P : exn -> bool) (m : M S A) (k : A -> M S B) :
  raises_only P m -> (forall a, raises_only P (k a)) -> raises_only P (bind m k).
Proof.
  intros Hm Hk s e. unfold bind. specialize (Hm s).
  destruct (m s) as [[a | e' |] s']; simpl in *.
  - apply Hk.
  - intros [= <-]. apply Hm. reflexivity.
  - discriminate.
Qed.

Lemma raises_only_weaken {A} (P Q : exn -> bool) (m : M S A) :
  (forall e, P e = true -> Q e = true) -> raises_only P m -> raises_only Q m.
Proof. intros HPQ Hm s e He. apply HPQ, (Hm s e He). Qed.

(** A [try] whose clauses match every exception of the body, and whose
    handlers raise nothing, raises nothing. *)
Lemma try_except_total {A} (P : exn -> bool) (body : M S A)
    (handler : exn -> option (M S A)) :
  raises_only P body ->
  (forall e, P e = true ->
     exists h, handler e = Some h /\ raises_only (fun _ => false) h) ->
  raises_only (fun _ => false) (try_except body handler).
Proof.
  intros Hbody Hh s e. unfold try_except. specialize (Hbody s).
  destruct (body s) as [[a | e' |] s']; simpl in *; try discriminate.
  destruct (Hh e' (Hbody e' eq_refl)) as (h & -> & Hnone). apply Hnone.
Qed.
End raises.

Lemma raises_only_outside {Self W A} (P : exn -> bool) (m : M W A) :
  raises_only P m -> raises_only P (@outside Self W A m).
Proof.
  intros Hm s e. unfold outside. specialize (Hm (snd s)).
  destruct (m (snd s)) as [r w']; simpl in *. apply Hm.
Qed.

Lemma raises_only_ask {A} (P : exn -> bool) (ev : event) (f : oracle -> nat -> A) :
  raises_only P (ask ev f).
Proof. intros s e; discriminate. Qed.

Section connect_ex_deadline.
Import GreenSocket.

(** What the two [except] clauses of [connect_ex] match. *)
Definition caught (e : exn) : bool := is_socket_error e || is_IOClosed e.

Lemma socket_connect_raises (p : platform) (fd : Z) (addr : address) :
  raises_only caught (socket_connect p fd addr).
Proof.
  intros w e. rewrite socket_connect_run; cbn zeta.
  destruct (py_in _ (CONNECT_ERR p)); [discriminate |].
  destruct (py_in _ CONNECT_SUCCESS); [discriminate |].
  intros [= <-]. reflexivity.
Qed.

Lemma socket_checkerr_raises (fd : Z) : raises_only caught (socket_checkerr fd).
Proof.
  intros w e. unfold socket_checkerr, bind, ask; simpl.
  destruct (negb _); [| discriminate]. intros [= <-]. reflexivity.
Qed.

Lemma trampoline_raises (fd : Z) (rd wr : bool) (timeout : option float) (exc : exn) :
  caught exc = true ->
  raises_only caught (_trampoline fd rd wr timeout (Some exc)).
Proof.
  intros Hexc [g w] e. destruct (_closed g) eqn:Hc.
  - rewrite (trampoline_closed_socket g w _ _ _ _ _ Hc). intros [= <-]. reflexivity.
  - rewrite (trampoline_open_socket g w _ _ _ _ _ Hc); cbn zeta.
    destruct (on_trampoline _ _), timeout; simpl; try discriminate;
      intros [= <-]; first [exact Hexc | reflexivity].
Qed.

Lemma connect_ex_handler_total (e : exn) :
  caught e = true ->
  exists h, connect_ex_handler e = Some h /\ raises_only (fun _ => false) h.
Proof.
  unfold caught, connect_ex_handler. intros He.
  destruct (is_socket_error e); [| destruct (is_IOClosed e); [| discriminate]];
    eexists; (split; [reflexivity | apply raises_only_ret]).
Qed.

(** With a deadline, every failure of the loop is inside the [try]: nothing
    is raised (the run returns a code, or the fuel ends first). *)
Lemma connect_ex_until_never_raises (fuel : nat) (p : platform) (fd fileno : Z)
    (addr : address) (deadline : float) :
  raises_only (fun _ => false) (connect_ex_until fuel p fd fileno addr deadline).
Proof.
  induction fuel as [| fuel IH]; [intros s e; discriminate |].
  cbn [connect_ex_until]. apply raises_only_bind.
  - apply (try_except_total caught); [| apply connect_ex_handler_total].
    apply raises_only_bind; [apply raises_only_outside, socket_connect_raises |].
    intros [|]; [apply raises_only_ret |].
    apply raises_only_bind; [apply raises_only_outside, raises_only_ask |].
    intros t1. destruct (PrimFloat.leb deadline t1);
      [apply raises_only_raise; reflexivity |].
    apply raises_only_bind; [apply raises_only_outside, raises_only_ask |].
    intros t2. apply raises_only_bind; [apply trampoline_raises; reflexivity |].
    intros _. apply raises_only_bind;
      [apply raises_only_outside, socket_checkerr_raises |].
    intros _. apply raises_only_ret.
  - intros [code |]; [apply raises_only_ret | exact IH].
Qed.

Lemma connect_ex_with_deadline_never_raises (g : t) (w : world) (fuel : nat)
    (addr : address) (d : float) (e : exn) :
  act_non_blocking g = false ->
  _timeout g = Some d ->
  fst (connect_ex fuel addr (g, w)) <> Raise e.
Proof.
  intros Hnb Hto. unfold connect_ex, bind at 1, self at 1; cbn [fst snd].
  rewrite Hnb.
  unfold the_world, fileno, gettimeout, bind at 1 2 3 4 5, self, ret; cbn [fst snd].
  rewrite Hto. unfold bind at 1, outside at 1, ask; cbn [fst snd].
  intros Hraise. apply connect_ex_until_never_raises in Hraise. discriminate.
Qed.
End connect_ex_deadline.

(** ** The closed signal in the duck socket *)

Section duck_closed.
Import _SocketDuckForFd.

Lemma duck_trampoline_run (d : t) (w : world) fd rd wr :
  _trampoline fd rd wr None None (d, w)
  = if _closed d then (Raise IOClosed, (d, w))
    else
      let w' := log (hub_trampoline fd rd wr None None) w in
      match on_trampoline (answers w) (now w) with
      | Closed => (Raise IOClosed, (set_closed true d, w'))
      | _ => (Return tt, (d, w'))
      end.
Proof.
  unfold _trampoline, bind, self; simpl. destruct (_closed d); [reflexivity |].
  unfold try_except, outside, trampoline; simpl.
  destruct (on_trampoline (answers w) (now w)); reflexivity.
Qed.

(** [recv] waits through [self._trampoline]: the closed signal marks the
    duck socket closed before it propagates. *)
Lemma duck_recv_marks_closed (d : t) (w : world) (fuel : nat) (buflen : Z) (e : exn) :
  _closed d = false ->
  on_read (answers w) (now w) = Throws e ->
  errno_in (get_errno e) (SOCKET_BLOCKING (sys_platform w)) = true ->
  on_trampoline (answers w) (S (now w)) = Closed ->
  recv (S fuel) buflen (d, w)
  = (Raise IOClosed,
     (set_closed true d,
      log (hub_trampoline (_fileno d) true false None None)
        (log (os_read (_fileno d) buflen) w))).
Proof.
  intros Hc Hread Hblock Hhub. cbn [recv].
  unfold bind at 1 2 3, self at 1, the_world at 1; cbn [fst snd].
  unfold try_except at 1, bind at 1, outside at 1, call; cbn [fst snd].
  rewrite Hread, (errno_in_socket_error _ _ Hblock), Hblock; cbn [negb].
  unfold ret at 1, fileno, bind at 1 2, self at 1, ret at 1; cbn [fst snd].
  unfold bind at 1. rewrite duck_trampoline_run, Hc; cbn zeta.
  rewrite now_log. change (answers (log _ w)) with (answers w).
  rewrite Hhub. reflexivity.
Qed.

(** C4 fails for [send]: its wait is the module-level [trampoline], so the
    closed signal leaves the method with the duck socket as it was, not marked
    closed. *)
Theorem duck_send_leaves_closed_unmarked (d : t) (w : world) (fuel : nat)
    (data : bytes) (e : exn) :
  on_write (answers w) (now w) = Throws e ->
  errno_in (get_errno e) (SOCKET_BLOCKING (sys_platform w)) = true ->
  on_trampoline (answers w) (S (now w)) = Closed ->
  send (S fuel) data (d, w)
  = (Raise IOClosed,
     (d, log (hub_trampoline (_fileno d) false true None None)
           (log (os_write (_fileno d) data) w))).
Proof.
  intros Hwrite Hblock Hhub. cbn [send].
  unfold bind at 1 2 3, self at 1, the_world at 1; cbn [fst snd].
  unfold try_except at 1, bind at 1, outside at 1, call; cbn [fst snd].
  rewrite Hwrite, (errno_in_socket_error _ _ Hblock), Hblock; cbn [negb].
  unfold fileno, bind at 1 2 3, self at 1, ret at 1; cbn [fst snd].
  unfold outside, trampoline; cbn [fst snd].
  rewrite now_log. change (answers (log _ w)) with (answers w).
  rewrite Hhub. reflexivity.
Qed.

(** The pipe is full, and the descriptor is invalidated during the wait. *)
Definition full_then_invalidated : world :=
  sample.posix
    (sample.with_write (fun _ => Throws (socket_error errno.EAGAIN))
       (sample.with_trampoline (fun _ => Closed) sample.quiet)).

Lemma duck_send_leaves_closed_unmarked_witness :
  let run := send 1 [] (sample.duck, full_then_invalidated) in
  fst run = Raise IOClosed
  /\ _closed (fst (snd run)) = false
  /\ count is_trampoline
       (since (snd (snd run))
          (snd (snd (_trampoline 5 false true None None (snd run))))) = 1%nat.
Proof.
  intros run.
  pose proof (duck_send_leaves_closed_unmarked sample.duck full_then_invalidated
                0 [] (socket_error errno.EAGAIN) eq_refl eq_refl eq_refl) as Hrun.
  fold run in Hrun. rewrite Hrun. repeat split.
Defined.
End duck_closed.

(** ** Reference counting of the duck socket *)

Section refcount.
Import _SocketDuckForFd.

Lemma set_refcount_same (d : t) : set_refcount (_refcount d) d = d.
Proof. destruct d; reflexivity. Qed.

Lemma reuse_run (d : t) (w : world) :
  _reuse (d, w) = (Return tt, (set_refcount (_refcount d + 1) d, w)).
Proof. reflexivity. Qed.

Lemma close_run (d : t) (w : world) :
  _close (d, w)
  = (Return tt,
     (set_closed true d,
      log (os_close (_fileno d)) (log (hub_notify_close (_fileno d)) w))).
Proof.
  unfold _close, bind, self, outside, notify_close, _mark_as_closed, set_self,
    try_except, call; simpl.
  destruct (on_close _ _) as [[] | e]; reflexivity.
Qed.

Lemma drop_run (d : t) (w : world) :
  _drop (d, w)
  = let d' := set_refcount (_refcount d - 1) d in
    if Z.eqb (_refcount d - 1) 0 then _close (d', w) else (Return tt, (d', w)).
Proof.
  unfold _drop, bind at 1 2 3, self, set_self; cbn [fst snd _refcount set_refcount].
  destruct (Z.eqb (_refcount d - 1) 0); reflexivity.
Qed.

Lemma times_reuse (n : nat) (d : t) (w : world) :
  times n _reuse (d, w)
  = (Return tt, (set_refcount (_refcount d + Z.of_nat n) d, w)).
Proof.
  revert d. induction n as [| n IH]; intros d.
  - cbn [times]. rewrite Z.add_0_r, set_refcount_same. reflexivity.
  - cbn [times]. unfold bind. rewrite reuse_run, IH.
    unfold set_refcount; cbn [_refcount _fileno _closed].
    replace (_refcount d + Z.of_nat (S n)) with (_refcount d + 1 + Z.of_nat n)
      by lia.
    reflexivity.
Qed.

(** Fewer drops than the count: nothing but the counter changes. *)
Lemma times_drop_short (k : nat) (d : t) (w : world) :
  Z.of_nat k < _refcount d ->
  times k _drop (d, w)
  = (Return tt, (set_refcount (_refcount d - Z.of_nat k) d, w)).
Proof.
  revert d. induction k as [| k IH]; intros d Hk.
  - cbn [times]. rewrite Z.sub_0_r, set_refcount_same. reflexivity.
  - cbn [times]. unfold bind. rewrite drop_run; cbn zeta.
    destruct (Z.eqb_spec (_refcount d - 1) 0) as [Hz | Hz]; [lia |].
    rewrite IH by (cbn [set_refcount _refcount]; lia).
    unfold set_refcount; cbn [_refcount _fileno _closed].
    replace (_refcount d - Z.of_nat (S k)) with (_refcount d - 1 - Z.of_nat k)
      by lia.
    reflexivity.
Qed.

(** As many drops as the count: the last one closes. *)
Lemma times_drop_all (n : nat) (d : t) (w : world) :
  (1 <= n)%nat ->
  _refcount d = Z.of_nat n ->
  times n _drop (d, w)
  = (Return tt,
     (set_closed true (set_refcount 0 d),
      log (os_close (_fileno d)) (log (hub_notify_close (_fileno d)) w))).
Proof.
  revert d. induction n as [| n IH]; intros d Hn Hr; [lia |].
  cbn [times]. unfold bind. rewrite drop_run; cbn zeta.
  destruct (Z.eqb_spec (_refcount d - 1) 0) as [Hz | Hz].
  - assert (n = 0%nat) as -> by lia. rewrite close_run. cbn [times].
    rewrite Hz. reflexivity.
  - rewrite IH by (cbn [set_refcount _refcount]; lia). reflexivity.
Qed.

(** From a count of 0: [n] reuses, then up to [n] drops. *)
Lemma reuse_drop_from_zero (d : t) (w : world) (n : nat) :
  _refcount d = 0 ->
  (1 <= n)%nat ->
  let reused := snd (times n _reuse (d, w)) in
  (forall k, (k < n)%nat ->
     let run := times k _drop reused in
     fst run = Return tt
     /\ count is_release (since w (snd (snd run))) = 0%nat
     /\ count is_notify_close (since w (snd (snd run))) = 0%nat)
  /\ (let run := times n _drop reused in
      fst run = Return tt
      /\ since w (snd (snd run))
         = [hub_notify_close (_fileno d); os_close (_fileno d)]
      /\ count is_release (since w (snd (snd run))) = 1%nat
      /\ count is_notify_close (since w (snd (snd run))) = 1%nat).
Proof.
  intros Hr Hn. cbn zeta. rewrite times_reuse, Hr; cbn [snd].
  split.
  - intros k Hk.
    rewrite times_drop_short by (cbn [set_refcount _refcount]; lia).
    cbn [fst snd]. rewrite since_refl. repeat split.
  - rewrite (times_drop_all n) by (cbn [set_refcount _refcount]; lia).
    cbn [fst snd set_refcount _fileno]. rewrite since_log2. repeat split.
Qed.

(** C5: on a duck socket as [__init__] makes it, and for every [n >= 1]:
    after [n] calls of [_reuse], [n] calls of [_drop] release the descriptor
    exactly once (the hub is notified of the close, then [os.close] is
    called), and fewer than [n] calls of [_drop] release nothing. *)
Theorem reuse_drop_releases_once (fileno : Z) (w : world) (n : nat) :
  (1 <= n)%nat ->
  exists (d : t) (w0 : world),
    __init__ fileno w = (Return d, w0)
    /\ _fileno d = fileno
    /\ let reused := snd (times n _reuse (d, w0)) in
       (forall k, (k < n)%nat ->
          let run := times k _drop reused in
          fst run = Return tt
          /\ count is_release (since w0 (snd (snd run))) = 0%nat
          /\ count is_notify_close (since w0 (snd (snd run))) = 0%nat)
       /\ (let run := times n _drop reused in
           fst run = Return tt
           /\ since w0 (snd (snd run)) = [hub_notify_close fileno; os_close fileno]
           /\ count is_release (since w0 (snd (snd run))) = 1%nat
           /\ count is_notify_close (since w0 (snd (snd run))) = 1%nat).
Proof.
  intros Hn.
  exists {| _fileno := fileno; _refcount := 0; _closed := false |},
    (log (hub_mark_as_reopened fileno) w).
  split; [reflexivity |]. split; [reflexivity |].
  apply (reuse_drop_from_zero
           {| _fileno := fileno; _refcount := 0; _closed := false |}
           (log (hub_mark_as_reopened fileno) w) n eq_refl Hn).
Qed.

Lemma reuse_drop_releases_once_witness :
  exists (d : t) (w0 : world),
    __init__ 5 (sample.posix sample.quiet) = (Return d, w0)
    /\ since w0 (snd (snd (times 2 _drop (snd (times 3 _reuse (d, w0)))))) = []
    /\ since w0 (snd (snd (times 3 _drop (snd (times 3 _reuse (d, w0))))))
       = [hub_notify_close 5; os_close 5].
Proof.
  destruct (reuse_drop_releases_once 5 (sample.posix sample.quiet) 3 ltac:(lia))
    as (d & w0 & Hinit & Hfd & Hshort & Hall).
  exists d, w0. split; [exact Hinit |].
  injection Hinit as <- <-.
  split; [reflexivity | apply Hall].
Defined.
End refcount.

(** ** A closed pipe *)

Section pipe_closed.
Import GreenPipe.

(** The pipe after the [setattr] loop over [names]. *)
Definition stubbed (names : list string) (p : t) : t :=
  foldl (fun s method => setattr method _operation_on_closed_file s) p names.

Lemma stubbed_dict (names : list string) (p : t) (name : string) :
  __dict__ (stubbed names p) !! name
  = if decide (name ∈ names) then Some _operation_on_closed_file
    else __dict__ p !! name.
Proof.
  revert p. induction names as [| x names IH]; intros p.
  - reflexivity.
  - unfold stubbed in *. cbn [foldl]. rewrite IH.
    destruct (decide (name ∈ names)) as [Hin | Hout].
    + rewrite decide_True by (right; exact Hin). reflexivity.
    + cbn [setattr __dict__]. destruct (decide (x = name)) as [-> | Hne].
      * rewrite decide_True by left. apply lookup_insert_eq.
      * rewrite decide_False by (rewrite elem_of_cons; intros [-> | H]; tauto).
        apply lookup_insert_ne, Hne.
Qed.

Lemma pipe_close_run (p : t) (d : disk) :
  close (p, d) = (Return tt, (stubbed closed_methods (set_closed true p), d)).
Proof. reflexivity. Qed.

Lemma method_stubbed {A} (name : string) (impl : M state A) (p : t) (d : disk) :
  __dict__ p !! name = Some _operation_on_closed_file ->
  method name impl (p, d) = (Raise closed_file, (p, d)).
Proof.
  intros Hstub. unfold method, bind, self; cbn [fst snd]. rewrite Hstub.
  reflexivity.
Qed.

Lemma method_after_close {A} (name : string) (impl : M state A) (p : t) (d : disk) :
  name ∈ closed_methods ->
  let s := snd (close (p, d)) in
  method name impl s = (Raise closed_file, s).
Proof.
  intros Hin s. unfold s. rewrite pipe_close_run. cbn [snd].
  apply method_stubbed. rewrite stubbed_dict, decide_True by exact Hin.
  reflexivity.
Qed.

(** C6: after [close()], each method the loop of [close] names, called on the
    pipe, raises [ValueError('I/O operation on closed file')] at once: the
    class method is not entered, no system call is made, and no buffer or
    descriptor state is read or changed. This holds for [fileno], [flush],
    [isatty], [read], [seek], [tell] and [truncate] as the class defines them
    (whatever the inherited [read] is), and for the other names for any class
    method behind them. *)
Theorem closed_pipe_fails_fast (p : t) (d : disk) :
  let s := snd (close (p, d)) in
  fst (close (p, d)) = Return tt
  /\ Forall
       (fun name =>
          forall (A : Type) (impl : M state A),
            method name impl s = (Raise closed_file, s))
       closed_methods
  /\ fileno s = (Raise closed_file, s)
  /\ flush s = (Raise closed_file, s)
  /\ isatty s = (Raise closed_file, s)
  /\ (forall inherited n, read inherited n s = (Raise closed_file, s))
  /\ (forall inherited pos whence,
        seek inherited pos whence s = (Raise closed_file, s))
  /\ tell s = (Raise closed_file, s)
  /\ (forall inherited size, truncate inherited size s = (Raise closed_file, s)).
Proof.
  intros s.
  assert (Hall : forall name, name ∈ closed_methods ->
            forall (A : Type) (impl : M state A),
              method name impl s = (Raise closed_file, s)).
  { intros name Hin A impl. apply (method_after_close name impl p d Hin). }
  split; [reflexivity |].
  split; [apply Forall_forall; exact Hall |].
  repeat split; intros; apply Hall; unfold closed_methods;
    rewrite !elem_of_cons; tauto.
Qed.
End pipe_closed.

(** ** Position arithmetic of an open pipe *)

Section pipe_position.
Import GreenPipe.

(** [close] was not called: the stream is not closed and no method has been
    replaced. *)
Definition is_open (p : t) : Prop :=
  closed p = false
  /\ forall name, name ∈ closed_methods -> __dict__ p !! name = None.

Lemma method_open {A} (name : string) (impl : M state A) (p : t) (d : disk) :
  is_open p -> name ∈ closed_methods -> method name impl (p, d) = impl (p, d).
Proof.
  intros [_ Hopen] Hin. unfold method, bind, self; cbn [fst snd].
  rewrite (Hopen name Hin). reflexivity.
Qed.

Ltac named := unfold closed_methods; rewrite !elem_of_cons; tauto.

(** On a raw stream [flush] writes nothing. *)
Lemma flush_run (p : t) (d : disk) :
  is_open p -> flush (p, d) = (Return tt, (p, d)).
Proof.
  intros Hopen. unfold flush. rewrite method_open by (exact Hopen || named).
  unfold _checkClosed, bind, self; cbn [fst snd]. rewrite (proj1 Hopen).
  reflexivity.
Qed.

Lemma fileno_run (p : t) (d : disk) :
  is_open p -> fileno (p, d) = (Return (_fileno p), (p, d)).
Proof.
  intros Hopen. unfold fileno. rewrite method_open by (exact Hopen || named).
  unfold _checkClosed, bind, self; cbn [fst snd]. rewrite (proj1 Hopen).
  reflexivity.
Qed.

(** [os.lseek(fd, 0, 1)] on a seekable file asks for the position and leaves
    the file as it is. *)
Lemma lseek_query (fd : Z) (d : disk) :
  seekable (file d) = true ->
  0 <= offset (file d) ->
  lseek fd 0 1 d = (Return (offset (file d)), sys (os_lseek fd 0 1) d).
Proof.
  intros Hseek Hpos. unfold lseek, sys. rewrite Hseek.
  destruct d as [[sk off sz ty] calls]. cbn in *. subst sk.
  rewrite Z.add_0_r.
  destruct (Z.ltb_spec off 0) as [Hneg | _]; [lia | reflexivity].
Qed.

(** The file with its position at [n]. *)
Definition at_offset (n : Z) (f : os_file) : os_file :=
  {| seekable := seekable f; offset := n; size := size f; tty := tty f |}.

Lemma lseek_raises (fd pos how : Z) (d : disk) (e : exn) :
  fst (lseek fd pos how d) = Raise e -> is_socket_error e = true.
Proof.
  unfold lseek. destruct (negb _); [intros [= <-]; reflexivity |].
  destruct (if Z.eqb how 0 then _ else _) as [n |]; [| intros [= <-]; reflexivity].
  destruct (Z.ltb n 0); [intros [= <-]; reflexivity | discriminate].
Qed.

Lemma lseek_absolute (fd n : Z) (d : disk) :
  seekable (file d) = true ->
  0 <= n ->
  lseek fd n 0 d
  = (Return n, {| file := at_offset n (file d);
                  syscalls := syscalls d ++ [os_lseek fd n 0] |}).
Proof.
  intros Hseek Hn. unfold lseek, at_offset. rewrite Hseek. cbn [negb Z.eqb].
  destruct (Z.ltb_spec n 0) as [Hneg | _]; [lia | reflexivity].
Qed.

(** What reading [self._rbuf] raises on a pipe that has no such attribute. *)
Definition missing : exn := AttributeError "_rbuf".

Lemma readahead_missing (p : t) (d : disk) :
  __dict__ p !! "_rbuf" = None ->
  _get_readahead_len (p, d) = (Raise missing, (p, d)).
Proof.
  intros Hnone. unfold _get_readahead_len, getattr, bind, self; cbn [fst snd].
  rewrite Hnone. reflexivity.
Qed.

Lemma readahead_given (p : t) (d : disk) (content : bytes) :
  __dict__ p !! "_rbuf" = Some (ABuffer content) ->
  _get_readahead_len (p, d) = (Return (Z.of_nat (length content)), (p, d)).
Proof.
  intros Hbuf. unfold _get_readahead_len, getattr, bind, self; cbn [fst snd].
  rewrite Hbuf. reflexivity.
Qed.

(** [tell] up to the read of the read-ahead length: a flush that writes
    nothing, then the position query. *)
Lemma tell_run (p : t) (d : disk) :
  is_open p ->
  seekable (file d) = true ->
  0 <= offset (file d) ->
  tell (p, d)
  = match _get_readahead_len (p, sys (os_lseek (_fileno p) 0 1) d) with
    | (Return len, s) => (Return (offset (file d) - len), s)
    | (Raise e, s) =>
        (Raise (if is_socket_error e then IOError_of e else e), s)
    | (OutOfFuel, s) => (OutOfFuel, s)
    end.
Proof.
  intros Hopen Hseek Hpos. unfold tell. rewrite method_open by (exact Hopen || named).
  unfold bind at 1. rewrite (flush_run p d Hopen).
  unfold as_IOError, try_except, bind at 1. rewrite (fileno_run p d Hopen).
  unfold bind at 1, outside at 1; cbn [fst snd].
  rewrite (lseek_query _ d Hseek Hpos). unfold bind at 1.
  destruct (_get_readahead_len _) as [[len | e |] s]; try reflexivity.
  destruct (is_socket_error e); reflexivity.
Qed.

(** With a buffer object stored under [_rbuf], [tell] does subtract its
    length from the OS position: this is what the method is written for. *)
Lemma tell_with_rbuf (p : t) (d : disk) (content : bytes) :
  is_open p ->
  seekable (file d) = true ->
  0 <= offset (file d) ->
  __dict__ p !! "_rbuf" = Some (ABuffer content) ->
  tell (p, d)
  = (Return (offset (file d) - Z.of_nat (length content)),
     (p, sys (os_lseek (_fileno p) 0 1) d)).
Proof.
  intros Hopen Hseek Hpos Hbuf. rewrite (tell_run p d Hopen Hseek Hpos).
  rewrite (readahead_given p _ content Hbuf). reflexivity.
Qed.

Lemma tell_missing (p : t) (d : disk) :
  is_open p ->
  seekable (file d) = true ->
  0 <= offset (file d) ->
  __dict__ p !! "_rbuf" = None ->
  tell (p, d) = (Raise missing, (p, sys (os_lseek (_fileno p) 0 1) d)).
Proof.
  intros Hopen Hseek Hpos Hnone. rewrite (tell_run p d Hopen Hseek Hpos).
  rewrite (readahead_missing p _ Hnone). reflexivity.
Qed.

Lemma seek_zero_is_tell (inherited : nat -> M state bytes) (p : t) (d : disk) :
  is_open p -> seek inherited 0 1 (p, d) = tell (p, d).
Proof.
  intros Hopen. unfold seek. rewrite method_open by (exact Hopen || named).
  unfold bind at 1. rewrite (flush_run p d Hopen). reflexivity.
Qed.

(** A relative seek reads the read-ahead length before it calls the OS. *)
Lemma seek_relative_missing (inherited : nat -> M state bytes) (p : t) (d : disk) (pos : Z) :
  is_open p ->
  __dict__ p !! "_rbuf" = None ->
  pos <> 0 ->
  seek inherited pos 1 (p, d) = (Raise missing, (p, d)).
Proof.
  intros Hopen Hnone Hpos. unfold seek. rewrite method_open by (exact Hopen || named).
  unfold bind at 1. rewrite (flush_run p d Hopen).
  cbn [Z.eqb Pos.eqb andb]. destruct (Z.eqb_spec pos 0) as [Hz | _]; [contradiction |].
  unfold bind at 1. unfold bind at 1. rewrite (readahead_missing p d Hnone).
  reflexivity.
Qed.

(** Any other seek calls the OS first and reads the read-ahead length
    after it, to clear the buffer. *)
Lemma seek_run (inherited : nat -> M state bytes) (p : t) (d : disk) (pos whence : Z) :
  is_open p ->
  __dict__ p !! "_rbuf" = None ->
  Z.eqb whence 1 = false ->
  seek inherited pos whence (p, d)
  = match lseek (_fileno p) pos whence d with
    | (Return rv, d2) => (Raise missing, (p, d2))
    | (Raise e, d2) => (Raise (IOError_of e), (p, d2))
    | (OutOfFuel, d2) => (OutOfFuel, (p, d2))
    end.
Proof.
  intros Hopen Hnone Hwhence. unfold seek.
  rewrite method_open by (exact Hopen || named).
  unfold bind at 1. rewrite (flush_run p d Hopen), Hwhence. cbn [andb].
  unfold bind at 1, ret at 1. unfold bind at 1.
  unfold as_IOError, try_except, bind at 1. rewrite (fileno_run p d Hopen).
  unfold outside; cbn [fst snd].
  pose proof (lseek_raises (_fileno p) pos whence d) as Hexn.
  destruct (lseek _ _ _ d) as [[rv | e |] d2]; cbn [fst snd] in *.
  - unfold bind at 1, _clear_readahead_buf, bind at 1.
    rewrite (readahead_missing p d2 Hnone). reflexivity.
  - rewrite (Hexn e eq_refl). reflexivity.
  - reflexivity.
Qed.

(** C7: the position arithmetic reads [self._rbuf], which a pipe does not
    have. On an open pipe as [__init__] leaves it, over a seekable file,
    [tell()] flushes, asks the OS for the position and then raises
    [AttributeError] instead of returning it; [seek(0, 1)] is [tell()], result
    and effects; [seek(pos, 1)] with [pos <> 0] raises before any OS call;
    [seek(pos)] moves the OS position and then raises; so no [seek] returns,
    whatever the inherited [read] is. *)
Theorem pipe_tell_seek_missing_rbuf (inherited : nat -> M state bytes)
    (p : t) (d : disk) :
  is_open p ->
  __dict__ p !! "_rbuf" = None ->
  seekable (file d) = true ->
  0 <= offset (file d) ->
  let fd := _fileno p in
  tell (p, d) = (Raise missing, (p, sys (os_lseek fd 0 1) d))
  /\ seek inherited 0 1 (p, d) = tell (p, d)
  /\ (forall pos, pos <> 0 -> seek inherited pos 1 (p, d) = (Raise missing, (p, d)))
  /\ (forall pos, 0 <= pos ->
        seek inherited pos 0 (p, d)
        = (Raise missing,
           (p, {| file := at_offset pos (file d);
                  syscalls := syscalls d ++ [os_lseek fd pos 0] |})))
  /\ (forall pos whence rv, fst (seek inherited pos whence (p, d)) <> Return rv).
Proof.
  intros Hopen Hnone Hseek Hpos fd.
  pose proof (tell_missing p d Hopen Hseek Hpos Hnone) as Htell.
  split; [exact Htell |].
  split; [apply (seek_zero_is_tell inherited p d Hopen) |].
  split; [intros pos Hne; apply (seek_relative_missing inherited p d pos Hopen Hnone Hne) |].
  split.
  - intros pos Hge. rewrite (seek_run inherited p d pos 0 Hopen Hnone eq_refl).
    rewrite (lseek_absolute _ pos d Hseek Hge). reflexivity.
  - intros pos whence rv. destruct (Z.eqb_spec whence 1) as [-> | Hne].
    + destruct (Z.eq_dec pos 0) as [-> | Hnz].
      * rewrite (seek_zero_is_tell inherited p d Hopen), Htell. discriminate.
      * rewrite (seek_relative_missing inherited p d pos Hopen Hnone Hnz). discriminate.
    + rewrite (seek_run inherited p d pos whence Hopen Hnone)
        by (apply Z.eqb_neq; exact Hne).
      destruct (lseek _ _ _ d) as [[rv' | e |] d2]; discriminate.
Qed.
(** The pipe [GreenPipe(7, 'rb')] as [__init__] leaves it, and a regular
    file of 100 bytes behind descriptor 7, with the OS position at 10. *)
Definition sample_pipe : t :=
  {| _fileno := 7; _name := "<fd:7>"; mode := "rb"; closed := false;
     __dict__ := {["softspace" := AInt 0]} |}.

Definition sample_disk : disk :=
  {| file := {| seekable := true; offset := 10; size := 100; tty := false |};
     syscalls := [] |}.

Lemma sample_pipe_open : is_open sample_pipe.
Proof.
  split; [reflexivity |]. intros name Hin. unfold closed_methods in Hin.
  rewrite !elem_of_cons, elem_of_nil in Hin.
  repeat (destruct Hin as [-> | Hin]; [reflexivity |]). destruct Hin.
Defined.

(** The inherited [read] of the samples: the OS has nothing to give. *)
Definition nothing_to_read (n : nat) : M state bytes := ret [].

Lemma pipe_tell_seek_missing_rbuf_witness :
  fst (tell (sample_pipe, sample_disk)) = Raise (AttributeError "_rbuf")
  /\ syscalls (snd (snd (tell (sample_pipe, sample_disk)))) = [os_lseek 7 0 1]
  /\ fst (seek nothing_to_read 4 1 (sample_pipe, sample_disk))
     = Raise (AttributeError "_rbuf")
  /\ seek nothing_to_read 40 0 (sample_pipe, sample_disk)
     = (Raise (AttributeError "_rbuf"),
        (sample_pipe,
         {| file := {| seekable := true; offset := 40; size := 100; tty := false |};
            syscalls := [os_lseek 7 40 0] |})).
Proof.
  destruct (pipe_tell_seek_missing_rbuf nothing_to_read sample_pipe sample_disk
              sample_pipe_open eq_refl eq_refl ltac:(cbn; lia))
    as (Htell & _ & Hrel & Habs & _).
  split; [rewrite Htell; reflexivity |].
  split; [rewrite Htell; reflexivity |].
  split; [rewrite (Hrel 4) by lia; reflexivity |].
  rewrite (Habs 40) by lia. reflexivity.
Defined.
End pipe_position.

(** ** The hub registry of a thread *)

Section hub_registry.
Import hub.

(** The registry once [hub] is cached as the instance of [cls] just built. *)
Definition cached (cls : string) (s : state) : state :=
  {| _threadlocal := <["hub" := InstanceVal cls (built s)]> (_threadlocal s);
     importable := importable s;
     built := S (built s) |}.

(** The registry once [Hub] is set to [v]. *)
Definition selected (v : pyval) (s : state) : state :=
  set_threadlocal (<["Hub" := v]>) s.

(** The registry after [n] more calls of [get_hub]. *)
Fixpoint after_calls (n : nat) (s : state) : state :=
  match n with
  | O => s
  | S n' => after_calls n' (snd (get_hub s))
  end.

Lemma get_hub_cached (s : state) (hub : pyval) :
  _threadlocal s !! "hub" = Some hub -> get_hub s = (Return hub, s).
Proof.
  intros Hhub. unfold get_hub, bind, get; cbn. rewrite Hhub. reflexivity.
Qed.

Lemma get_hub_first (s : state) (cls : string) :
  _threadlocal s !! "hub" = None ->
  _threadlocal s !! "Hub" = Some (ClassVal cls) ->
  get_hub s = (Return (InstanceVal cls (built s)), cached cls s).
Proof.
  intros Hhub HHub. unfold get_hub, bind at 1, get at 1. rewrite Hhub.
  unfold bind at 1. rewrite HHub. unfold ret at 1, bind at 1, get at 1.
  rewrite HHub. reflexivity.
Qed.

Lemma after_calls_cached (n : nat) (s : state) (hub : pyval) :
  _threadlocal s !! "hub" = Some hub -> after_calls n s = s.
Proof.
  intros Hhub. induction n as [| n IH]; [reflexivity |].
  cbn [after_calls]. rewrite (get_hub_cached s hub Hhub). exact IH.
Qed.

Lemma cached_lookup (cls : string) (s : state) :
  _threadlocal (cached cls s) !! "hub" = Some (InstanceVal cls (built s)).
Proof. apply lookup_insert_eq. Qed.

(** [get_default_hub] with the first backend present, or only the second. *)
Lemma get_default_hub_run (s : state) :
  get_default_hub s
  = (match importable s !! "pyuv", importable s !! "epoll" with
     | Some m, _ => Return (ModuleVal m)
     | None, Some m => Return (ModuleVal m)
     | None, None => Return NoneVal
     end, s).
Proof.
  unfold get_default_hub. cbn [get_default_hub_from].
  unfold bind, try_except, import_module, bind, get; cbn.
  destruct (importable s !! "pyuv"); [reflexivity |]. cbn.
  destruct (importable s !! "epoll"); reflexivity.
Qed.

Lemma use_hub_run (v : pyval) (s : state) :
  falsy v = false ->
  use_hub v s
  = (Return tt,
     selected (default v (Hub_of v)) (set_threadlocal (delete "hub") s)).
Proof.
  intros Hv. unfold use_hub, bind at 1. rewrite Hv. unfold ret at 1.
  unfold bind at 1, modify at 1.
  assert (Hdel : set_threadlocal
                   (fun tl => match tl !! "hub" with
                              | Some _ => delete "hub" tl
                              | None => tl
                              end) s
                 = set_threadlocal (delete "hub") s).
  { unfold set_threadlocal. f_equal.
    destruct (_threadlocal s !! "hub") eqn:Hhub; [reflexivity |].
    symmetry. apply delete_id, Hhub. }
  rewrite Hdel. destruct (Hub_of v); reflexivity.
Qed.
Lemma bind_returned {S A B} (m : M S A) (k : A -> M S B) (s s' : S) (a : A) :
  m s = (Return a, s') -> bind m k s = k a s'.
Proof. intros Hm. unfold bind. rewrite Hm. reflexivity. Qed.

Lemma use_hub_default (s : state) (m : backend) :
  fst (get_default_hub s) = Return (ModuleVal m) ->
  use_hub NoneVal s = use_hub (ModuleVal m) s.
Proof.
  intros Hdefault. unfold use_hub. cbn [falsy].
  assert (Hrun : get_default_hub s = (Return (ModuleVal m), s)).
  { rewrite get_default_hub_run in *. cbn [fst] in Hdefault. rewrite Hdefault.
    reflexivity. }
  rewrite (bind_returned _ _ s s (ModuleVal m) Hrun).
  rewrite (bind_returned (ret (ModuleVal m)) _ s s (ModuleVal m) eq_refl).
  reflexivity.
Qed.

Lemma forget_nothing (s : state) :
  _threadlocal s !! "hub" = None -> set_threadlocal (delete "hub") s = s.
Proof.
  intros Hhub. destruct s as [tl imp n]. unfold set_threadlocal; cbn in *.
  rewrite (delete_id tl "hub" Hhub). reflexivity.
Qed.

Lemma get_hub_default (s : state) (m : backend) (cls : string) :
  _threadlocal s !! "hub" = None ->
  _threadlocal s !! "Hub" = None ->
  fst (get_default_hub s) = Return (ModuleVal m) ->
  backend_Hub m = Some cls ->
  get_hub s
  = (Return (InstanceVal cls (built s)), cached cls (selected (ClassVal cls) s)).
Proof.
  intros Hhub HHub Hdefault Hcls. unfold get_hub, bind at 1, get at 1.
  rewrite Hhub, HHub.
  assert (Huse : use_hub NoneVal s = (Return tt, selected (ClassVal cls) s)).
  { rewrite (use_hub_default s m Hdefault), use_hub_run by reflexivity.
    cbn [Hub_of]. rewrite Hcls. cbn [fmap option_fmap option_map default].
    rewrite (forget_nothing s Hhub). reflexivity. }
  rewrite (bind_returned _ _ _ _ tt Huse).
  unfold bind at 1, get at 1.
  assert (Hsel : _threadlocal (selected (ClassVal cls) s) !! "Hub"
                 = Some (ClassVal cls)) by apply lookup_insert_eq.
  rewrite Hsel. reflexivity.
Qed.

(** C9: [get_hub] is a lazy singleton accessor. The first call, with a hub
    class chosen, builds exactly one hub and caches it; with no choice made
    it first selects the default backend, then does the same. Every later
    call returns that instance and builds nothing. [use_hub(backend)] drops
    the cached hub and stores the [Hub] of the backend when it has one,
    otherwise the backend itself, so that the next [get_hub] builds a fresh
    instance. *)
Theorem get_hub_use_hub (s : state) :
  (forall cls,
     _threadlocal s !! "hub" = None ->
     _threadlocal s !! "Hub" = Some (ClassVal cls) ->
     get_hub s = (Return (InstanceVal cls (built s)), cached cls s)
     /\ forall n,
          get_hub (after_calls n (cached cls s))
          = (Return (InstanceVal cls (built s)), cached cls s))
  /\ (forall m cls,
        _threadlocal s !! "hub" = None ->
        _threadlocal s !! "Hub" = None ->
        fst (get_default_hub s) = Return (ModuleVal m) ->
        backend_Hub m = Some cls ->
        let s1 := cached cls (selected (ClassVal cls) s) in
        get_hub s = (Return (InstanceVal cls (built s)), s1)
        /\ built s1 = S (built s)
        /\ forall n,
             get_hub (after_calls n s1) = (Return (InstanceVal cls (built s)), s1))
  /\ (forall v,
        falsy v = false ->
        let s' := snd (use_hub v s) in
        fst (use_hub v s) = Return tt
        /\ _threadlocal s' !! "hub" = None
        /\ _threadlocal s' !! "Hub" = Some (default v (Hub_of v))
        /\ built s' = built s
        /\ forall cls,
             default v (Hub_of v) = ClassVal cls ->
             get_hub s' = (Return (InstanceVal cls (built s)), cached cls s')).
Proof.
  split; [| split].
  - intros cls Hhub HHub. split; [apply get_hub_first; assumption |].
    intros n. rewrite (after_calls_cached n _ _ (cached_lookup cls s)).
    apply get_hub_cached, cached_lookup.
  - intros m cls Hhub HHub Hdefault Hcls s1.
    split; [apply (get_hub_default s m cls); assumption |].
    split; [reflexivity |].
    intros n. unfold s1.
    rewrite (after_calls_cached n _ _ (cached_lookup cls (selected (ClassVal cls) s))).
    exact (get_hub_cached _ _ (cached_lookup cls (selected (ClassVal cls) s))).
  - intros v Hv s'. unfold s'. rewrite (use_hub_run v s Hv). cbn [fst snd].
    assert (Hhub : _threadlocal
                     (selected (default v (Hub_of v))
                        (set_threadlocal (delete "hub") s)) !! "hub" = None).
    { cbn. rewrite lookup_insert_ne by discriminate. apply lookup_delete_eq. }
    assert (HHub : _threadlocal
                     (selected (default v (Hub_of v))
                        (set_threadlocal (delete "hub") s)) !! "Hub"
                   = Some (default v (Hub_of v))).
    { cbn. apply lookup_insert_eq. }
    split; [reflexivity |]. split; [exact Hhub |]. split; [exact HHub |].
    split; [reflexivity |].
    intros cls Hcls. apply (get_hub_first _ cls Hhub).
    rewrite HHub, Hcls. reflexivity.
Qed.

(** The backend module [guv.hubs.epoll], holding a class [Hub]. *)
Definition epoll : backend := {| backend_name := "epoll"; backend_Hub := Some "epoll.Hub" |}.

(** A thread that has not touched the registry; only [epoll] can be imported. *)
Definition fresh_thread : state :=
  {| _threadlocal := ∅; importable := {["epoll" := epoll]}; built := 0 |}.

Lemma get_hub_use_hub_witness :
  let first := get_hub fresh_thread in
  fst first = Return (InstanceVal "epoll.Hub" 0)
  /\ get_hub (snd first) = (Return (InstanceVal "epoll.Hub" 0), snd first)
  /\ fst (get_hub (snd (use_hub (ModuleVal epoll) (snd first))))
     = Return (InstanceVal "epoll.Hub" 1).
Proof.
  intros first.
  destruct (get_hub_use_hub fresh_thread) as (_ & Hdefault & _).
  destruct (Hdefault epoll "epoll.Hub" eq_refl eq_refl eq_refl eq_refl)
    as (Hfirst & _ & Hagain).
  destruct (get_hub_use_hub (snd first)) as (_ & _ & Huse).
  destruct (Huse (ModuleVal epoll) eq_refl) as (_ & _ & _ & _ & Hnext).
  split; [unfold first; rewrite Hfirst; reflexivity |].
  split; [unfold first; rewrite Hfirst; exact (Hagain 0%nat) |].
  rewrite (Hnext "epoll.Hub" eq_refl). unfold first. rewrite Hfirst. reflexivity.
Defined.
End hub_registry.

(** * Further properties of the code *)

(** ** Suspending [recv], [send] and [sendall] *)

Section more_send.
Import GreenSocket.

(** The peer makes the socket wait once, then sends one byte. *)
Definition busy_then_data : world :=
  sample.posix
    (sample.with_recv
       (fun n => match n with
                 | O => Throws (socket_error errno.EAGAIN)
                 | _ => Gives [Byte.x61]
                 end)
       sample.quiet).

(** X1: in the suspending mode, on a socket not marked closed, when the OS
    answers [recv] with [n] would-block errors, each followed by a wake-up of
    the hub, and then with data, [recv] returns that data after exactly [n]
    waits and [n + 1] OS calls. *)
Theorem recv_returns_after_n_waits (n : nat) (g : t) (w : world)
    (buflen flags : Z) (b : bytes) :
  act_non_blocking g = false ->
  _closed g = false ->
  (forall i, (i < n)%nat ->
     would_block w (now w + 2 * i)%nat
     /\ on_trampoline (answers w) (now w + 2 * i + 1)%nat = Ready) ->
  on_recv (answers w) (now w + 2 * n)%nat = Gives b ->
  let run := recv (S n) buflen flags (g, w) in
  fst run = Return (PyBytes b)
  /\ fst (snd run) = g
  /\ count is_trampoline (since w (snd (snd run))) = n
  /\ count is_sock_call (since w (snd (snd run))) = S n.
Proof.
  intros Hnb Hc Hblock Hdata run.
  assert (Hrun : run = (Return (PyBytes b),
                        (g, extend ([] ++ rounds n g buflen flags) w))).
  { unfold run. rewrite <- (extend_nil w) at 1.
    apply (recv_converges n g buflen flags b Hnb Hc [] w).
    - intros i Hi. cbn [length]. rewrite Nat.add_0_r. apply Hblock, Hi.
    - cbn [length]. rewrite Nat.add_0_r. exact Hdata. }
  rewrite Hrun. cbn [fst snd app].
  assert (Hsince : since w (extend (rounds n g buflen flags) w)
                   = rounds n g buflen flags).
  { unfold since, extend; cbn. apply drop_app_length. }
  rewrite Hsince. destruct (rounds_waits n g buflen flags) as [Hw Hs].
  repeat split; assumption.
Qed.

Lemma recv_returns_after_n_waits_witness :
  let run := recv 2 1024 0 (sample.green, busy_then_data) in
  fst run = Return (PyBytes [Byte.x61])
  /\ fst (snd run) = sample.green
  /\ count is_trampoline (since busy_then_data (snd (snd run))) = 1%nat
  /\ count is_sock_call (since busy_then_data (snd (snd run))) = 2%nat.
Proof.
  apply (recv_returns_after_n_waits 1 sample.green busy_then_data 1024 0 [Byte.x61]);
    try reflexivity.
  intros i Hi. assert (i = 0%nat) as -> by lia. split; [| reflexivity].
  exists (socket_error errno.EAGAIN). split; reflexivity.
Defined.

Lemma send_is_loop (g : t) (w : world) (fuel : nat) (data : bytes) (flags : Z) :
  act_non_blocking g = false ->
  send fuel data flags (g, w)
  = _old_send_loop fuel (sys_platform w) (sock g) data flags 0 (g, w).
Proof.
  intros Hnb. unfold send, _old_send, bind, self, the_world; simpl.
  rewrite Hnb. reflexivity.
Qed.

(** The loop leaves only through [total_sent == len_data]. *)
Lemma old_send_loop_returns_len (fuel : nat) (p : platform) (fd : Z) (data : bytes)
    (flags : Z) (total : Z) (s s' : state) (n : Z) :
  _old_send_loop fuel p fd data flags total s = (Return n, s') ->
  n = Z.of_nat (length data).
Proof.
  revert total s. induction fuel as [| fuel IH]; intros total s; [discriminate |].
  cbn [_old_send_loop]. unfold bind at 1.
  match goal with
  | |- context [try_except ?body ?h s] =>
      destruct (try_except body h s) as [[total' | e |] s1]; try discriminate
  end.
  destruct (Z.eqb_spec total' (Z.of_nat (length data))) as [Heq | Hne].
  - intros [= <- <-]. exact Heq.
  - unfold bind at 1. destruct (fileno s1) as [[fd' | e |] s2]; try discriminate.
    unfold bind at 1. destruct (gettimeout s2) as [[timeout | e |] s3];
      try discriminate.
    unfold bind at 1.
    match goal with
    | |- context [closed_as ?e ?body s3] =>
        destruct (closed_as e body s3) as [[[] | e' |] s4]; try discriminate
    end.
    apply IH.
Qed.

(** X2: in the suspending mode, whatever the OS and the hub answer, a
    [send] that returns, returns the length of the data: it never reports
    a partial send. *)
Theorem send_returns_len (g : t) (w : world) (fuel : nat) (data : bytes)
    (flags : Z) (n : Z) :
  act_non_blocking g = false ->
  fst (send fuel data flags (g, w)) = Return n ->
  n = Z.of_nat (length data).
Proof.
  intros Hnb. rewrite (send_is_loop g w fuel data flags Hnb).
  destruct (_old_send_loop _ _ _ _ _ _ _) as [r s'] eqn:Hrun. cbn [fst].
  intros ->. apply (old_send_loop_returns_len _ _ _ _ _ _ _ _ _ Hrun).
Qed.

(** The OS takes two bytes, blocks, then takes the third. *)
Definition two_then_one : world :=
  {| sys_platform := Posix; getdefaulttimeout := None;
     answers :=
       {| on_recv := on_recv sample.quiet;
          on_send := fun n => match n with
                              | O => Gives 2
                              | 2%nat => Throws (socket_error errno.EAGAIN)
                              | _ => Gives 1
                              end;
          on_sendto := on_sendto sample.quiet;
          on_connect := on_connect sample.quiet;
          on_connect_ex := on_connect_ex sample.quiet;
          on_SO_ERROR := on_SO_ERROR sample.quiet;
          on_accept := on_accept sample.quiet;
          on_read := on_read sample.quiet;
          on_write := on_write sample.quiet;
          on_close := on_close sample.quiet;
          on_trampoline := on_trampoline sample.quiet;
          on_time := on_time sample.quiet |};
     trace := [] |}.

Definition abc : bytes := [Byte.x61; Byte.x62; Byte.x63].

Lemma send_returns_len_witness :
  fst (send 5 abc 0 (sample.green, two_then_one)) = Return 3
  /\ trace (snd (snd (send 5 abc 0 (sample.green, two_then_one))))
     = [sock_send 3 abc 0;
        hub_trampoline 3 false true None (Some timed_out);
        sock_send 3 [Byte.x63] 0;
        hub_trampoline 3 false true None (Some timed_out);
        sock_send 3 [Byte.x63] 0].
Proof.
  split; [| reflexivity].
  destruct (fst (send 5 abc 0 (sample.green, two_then_one))) as [n | e |] eqn:Hrun;
    [| discriminate Hrun | discriminate Hrun].
  rewrite (send_returns_len sample.green two_then_one 5 abc 0 n eq_refl Hrun).
  reflexivity.
Defined.

(** The outcome of a method whose value is dropped. *)
Definition forget {A} (r : result A) : result unit :=
  match r with
  | Return _ => Return tt
  | Raise e => Raise e
  | OutOfFuel => OutOfFuel
  end.

(** X3: in the suspending mode [sendall] on data that is not empty is one
    call of [send] on all of it: the same events, the same exception if
    any, and a return as soon as that [send] returns. On empty data
    [sendall] does nothing, not even an OS call. *)
Theorem sendall_is_one_send (g : t) (w : world) (fuel : nat) (data : bytes)
    (flags : Z) :
  act_non_blocking g = false ->
  sendall fuel [] flags (g, w) = (Return tt, (g, w))
  /\ (data <> [] ->
      sendall (S fuel) data flags (g, w)
      = (forget (fst (send (S fuel) data flags (g, w))),
         snd (send (S fuel) data flags (g, w)))).
Proof.
  intros Hnb. split; [destruct fuel; reflexivity |].
  intros Hdata. destruct data as [| x data]; [congruence |].
  cbn [sendall]. unfold bind.
  assert (Hlen : forall n,
             fst (send (S fuel) (x :: data) flags (g, w)) = Return n ->
             n = Z.of_nat (length (x :: data))).
  { intros n. rewrite (send_is_loop g w (S fuel) (x :: data) flags Hnb).
    destruct (_old_send_loop _ _ _ _ _ _ _) as [r s'] eqn:Hrun. cbn [fst].
    intros ->. apply (old_send_loop_returns_len _ _ _ _ _ _ _ _ _ Hrun). }
  destruct (send (S fuel) (x :: data) flags (g, w)) as [[n | e |] s'];
    cbn [fst snd forget]; try reflexivity.
  rewrite (Hlen n eq_refl). unfold slice_from.
  destruct (Z.ltb_spec (Z.of_nat (length (x :: data))) 0) as [Hneg | _]; [lia |].
  rewrite Nat2Z.id, drop_all. destruct fuel; reflexivity.
Qed.

Lemma sendall_is_one_send_witness :
  sendall 5 abc 0 (sample.green, two_then_one)
  = (Return tt, snd (send 5 abc 0 (sample.green, two_then_one))).
Proof.
  destruct (sendall_is_one_send sample.green two_then_one 4 abc 0 eq_refl)
    as [_ Hone].
  rewrite Hone by discriminate. reflexivity.
Defined.

Lemma new_send_is_loop (g : t) (w : world) (fuel : nat) (data : bytes) (flags : Z) :
  act_non_blocking g = false ->
  _new_send fuel data flags (g, w)
  = _new_send_loop fuel (sys_platform w) (sock g) flags data 0 (g, w).
Proof.
  intros Hnb. unfold _new_send, bind, self, the_world; simpl.
  rewrite Hnb. reflexivity.
Qed.

(** X4: the two send loops of the source differ. When the OS takes all of
    the data in the first call, [_old_send] (the one bound to [send])
    returns at once, while [_new_send] first waits on the hub for write
    readiness: it can then fail with a timeout or with [ECONNRESET] although
    everything was sent. *)
Theorem new_send_waits_after_complete_send (g : t) (w : world) (fuel : nat)
    (data : bytes) (flags : Z) :
  act_non_blocking g = false ->
  _closed g = false ->
  data <> [] ->
  on_send (answers w) (now w) = Gives (Z.of_nat (length data)) ->
  let w1 := log (sock_send (sock g) data flags) w in
  let w2 := log (hub_trampoline (sock g) false true (_timeout g) (Some timed_out)) w1 in
  _old_send (S fuel) data flags (g, w) = (Return (Z.of_nat (length data)), (g, w1))
  /\ _new_send (S fuel) data flags (g, w)
     = match on_trampoline (answers w) (S (now w)), _timeout g with
       | Closed, _ => (Raise (socket_error errno.ECONNRESET), (set_closed true g, w2))
       | Elapsed, Some _ => (Raise timed_out, (g, w2))
       | _, _ => (Return (Z.of_nat (length data)), (g, w2))
       end.
Proof.
  intros Hnb Hc Hdata Hsend w1 w2. split.
  - change (_old_send (S fuel) data flags (g, w))
      with (send (S fuel) data flags (g, w)).
    rewrite (send_is_loop g w (S fuel) data flags Hnb). cbn [_old_send_loop].
    unfold bind at 1, try_except at 1, bind at 1, outside at 1, call; cbn [fst snd].
    change (slice_from 0 data) with data. rewrite Hsend. unfold ret at 1.
    cbn [Z.add]. rewrite Z.eqb_refl. reflexivity.
  - rewrite (new_send_is_loop g w (S fuel) data flags Hnb).
    destruct data as [| x data]; [congruence |]. cbn [_new_send_loop].
    unfold bind at 1, try_except at 1, bind at 1, outside at 1, call; cbn [fst snd].
    rewrite Hsend. unfold ret at 1.
    unfold fileno, gettimeout, bind at 1 2 3 4, self at 1 2, ret at 1 2.
    cbn [fst snd]. unfold bind at 1, closed_as, try_except at 1.
    rewrite (trampoline_open_socket g _ _ _ _ _ _ Hc). cbn zeta.
    rewrite now_log. fold w1. change (answers w1) with (answers w). fold w2.
    assert (Hrest : slice_from (Z.of_nat (length (x :: data))) (x :: data) = []).
    { unfold slice_from.
      destruct (Z.ltb_spec (Z.of_nat (length (x :: data))) 0) as [Hneg | _]; [lia |].
      rewrite Nat2Z.id. apply drop_all. }
    rewrite Hrest.
    destruct (on_trampoline (answers w) (S (now w))), (_timeout g);
      try reflexivity; destruct fuel; reflexivity.
Qed.

Lemma new_send_waits_after_complete_send_witness :
  let w := sample.posix
             (sample.with_trampoline (fun _ => Closed)
                {| on_recv := on_recv sample.quiet;
                   on_send := fun _ => Gives 3;
                   on_sendto := on_sendto sample.quiet;
                   on_connect := on_connect sample.quiet;
                   on_connect_ex := on_connect_ex sample.quiet;
                   on_SO_ERROR := on_SO_ERROR sample.quiet;
                   on_accept := on_accept sample.quiet;
                   on_read := on_read sample.quiet;
                   on_write := on_write sample.quiet;
                   on_close := on_close sample.quiet;
                   on_trampoline := on_trampoline sample.quiet;
                   on_time := on_time sample.quiet |}) in
  fst (_old_send 1 abc 0 (sample.green, w)) = Return 3
  /\ fst (_new_send 1 abc 0 (sample.green, w))
     = Raise (socket_error errno.ECONNRESET).
Proof.
  intros w.
  destruct (new_send_waits_after_complete_send sample.green w 0 abc 0
              eq_refl eq_refl ltac:(discriminate) eq_refl) as [Hold Hnew].
  rewrite Hold, Hnew. split; reflexivity.
Defined.
End more_send.

(** ** A green socket marked closed *)

Section closed_socket.
Import GreenSocket.

Lemma log_is_extend (e : event) (w : world) : log e w = extend [e] w.
Proof. reflexivity. Qed.

Lemma extend_extend (l1 l2 : list event) (w : world) :
  extend l2 (extend l1 w) = extend (l1 ++ l2) w.
Proof. unfold extend; cbn. rewrite <- app_assoc. reflexivity. Qed.

Lemma since_extend (l : list event) (w : world) : since w (extend l w) = l.
Proof. unfold since, extend; cbn. apply drop_app_length. Qed.

(** The run [run] from the world [w] never waited on the hub, ended, and
    left the socket marked closed. *)
Definition never_waited {A} (w : world) (run : result A * state) : Prop :=
  count is_trampoline (since w (snd (snd run))) = 0%nat
  /\ fst run <> OutOfFuel
  /\ _closed (fst (snd run)) = true.

Lemma recv_closed_socket (g : t) (w : world) (fuel : nat) (buflen flags : Z) :
  _closed g = true ->
  act_non_blocking g = false ->
  exists r, recv (S fuel) buflen flags (g, w)
            = (r, (g, extend [sock_recv (sock g) buflen flags] w))
            /\ r <> OutOfFuel
            /\ (forall e, on_recv (answers w) (now w) = Throws e ->
                  errno_in (get_errno e) (SOCKET_BLOCKING (sys_platform w)) = true ->
                  r = Raise EOFError).
Proof.
  intros Hc Hnb. rewrite (recv_round g w fuel buflen flags Hnb). cbn zeta.
  rewrite Hc, <- log_is_extend.
  destruct (on_recv (answers w) (now w)) as [b | e].
  - eexists; split; [reflexivity |]. split; [discriminate |]. intros e [=].
  - destruct (is_socket_error e) eqn:Hs;
      [destruct (errno_in (get_errno e) (SOCKET_BLOCKING (sys_platform w))) eqn:Hb;
       [| destruct (errno_in (get_errno e) (SOCKET_CLOSED (sys_platform w)))] |];
      (eexists; split; [reflexivity |]); (split; [discriminate |]);
      intros e' [= <-] Hb'; try reflexivity; try congruence.
    rewrite (errno_in_socket_error _ _ Hb') in Hs. discriminate.
Qed.

Lemma send_closed_socket (g : t) (w : world) (fuel : nat) (data : bytes) (flags : Z) :
  _closed g = true ->
  act_non_blocking g = false ->
  exists r, send (S fuel) data flags (g, w)
            = (r, (g, extend [sock_send (sock g) data flags] w))
            /\ r <> OutOfFuel
            /\ (forall e, on_send (answers w) (now w) = Throws e ->
                  errno_in (get_errno e) (SOCKET_BLOCKING (sys_platform w)) = true ->
                  data <> [] ->
                  r = Raise (socket_error errno.ECONNRESET)).
Proof.
  intros Hc Hnb. rewrite (send_is_loop g w (S fuel) data flags Hnb).
  cbn [_old_send_loop].
  unfold bind at 1, try_except at 1, bind at 1, outside at 1, call; cbn [fst snd].
  change (slice_from 0 data) with data. rewrite <- log_is_extend.
  assert (Hwait : forall total w1,
            bind fileno (fun fd =>
            bind gettimeout (fun timeout =>
            bind (closed_as (socket_error errno.ECONNRESET)
                    (_trampoline fd false true timeout (Some timed_out)))
                 (fun _ =>
                    _old_send_loop fuel (sys_platform w) (sock g) data flags total)))
              (g, w1)
            = (Raise (socket_error errno.ECONNRESET), (g, w1))).
  { intros total w1.
    unfold fileno, gettimeout, bind at 1 2 3 4, self at 1 2, ret at 1 2.
    cbn [fst snd]. unfold bind at 1, closed_as, try_except at 1.
    rewrite (trampoline_closed_socket g w1 _ _ _ _ _ Hc). reflexivity. }
  destruct (on_send (answers w) (now w)) as [n | e].
  - unfold ret at 1. change (0 + n) with n.
    destruct (Z.eqb n (Z.of_nat (length data))) eqn:Hn.
    + eexists; split; [reflexivity |]. split; [discriminate |]. intros e [=].
    + rewrite (Hwait n). eexists; split; [reflexivity |].
      split; [discriminate |]. intros e [=].
  - destruct (is_socket_error e) eqn:Hs.
    + destruct (errno_in (get_errno e) (SOCKET_BLOCKING (sys_platform w))) eqn:Hb;
        cbn [negb].
      * unfold ret at 1.
        destruct (Z.eqb 0 (Z.of_nat (length data))) eqn:Hn.
        -- eexists; split; [reflexivity |]. split; [discriminate |].
           intros e' _ _ Hdata. destruct data; [congruence |].
           cbn [length] in Hn. apply Z.eqb_eq in Hn. lia.
        -- rewrite (Hwait 0). eexists; split; [reflexivity |].
           split; [discriminate |]. reflexivity.
      * eexists; split; [reflexivity |]. split; [discriminate |].
        intros e' [= <-] Hb'. congruence.
    + eexists; split; [reflexivity |]. split; [discriminate |].
      intros e' [= <-] Hb'. rewrite (errno_in_socket_error _ _ Hb') in Hs.
      discriminate.
Qed.
Lemma connect_closed_socket (g : t) (w : world) (fuel : nat) (addr : address) :
  _closed g = true ->
  act_non_blocking g = false ->
  exists r l, connect (S fuel) addr (g, w) = (r, (g, extend l w))
              /\ count is_trampoline l = 0%nat
              /\ r <> OutOfFuel
              /\ (_timeout g = None ->
                  py_in (on_connect_ex (answers w) (now w))
                    (CONNECT_ERR (sys_platform w)) = true ->
                  r = Raise (socket_error errno.EBADFD)).
Proof.
  intros Hc Hnb. unfold connect, bind at 1, self at 1; cbn [fst snd].
  rewrite Hnb.
  unfold the_world, fileno, gettimeout, bind at 1 2 3 4 5, self, ret; cbn [fst snd].
  assert (Hwait : forall timeout exc w1 (k : unit -> M state unit),
            bind (closed_as (socket_error errno.EBADFD)
                    (_trampoline (sock g) false true timeout exc)) k (g, w1)
            = (Raise (socket_error errno.EBADFD), (g, w1))).
  { intros timeout exc w1 k. unfold bind, closed_as, try_except.
    rewrite (trampoline_closed_socket g w1 _ _ _ _ _ Hc). reflexivity. }
  destruct (_timeout g) as [d |].
  - unfold bind at 1, outside at 1, ask; cbn [fst snd]. cbn [connect_until].
    unfold bind at 1, outside at 1; cbn [fst snd]. rewrite socket_connect_run.
    cbn zeta.
    destruct (py_in _ (CONNECT_ERR _));
      [| destruct (py_in _ CONNECT_SUCCESS);
         (eexists; exists [time_time; sock_connect_ex (sock g) addr];
          rewrite !log_is_extend, extend_extend;
          repeat split; try reflexivity; discriminate)].
    unfold bind at 1, outside at 1, ask; cbn [fst snd].
    destruct (PrimFloat.leb _ _).
    + eexists; exists [time_time; sock_connect_ex (sock g) addr; time_time].
      unfold raise. rewrite !log_is_extend, !extend_extend.
      repeat split; try reflexivity; discriminate.
    + unfold bind at 1, outside at 1; cbn [fst snd]. rewrite Hwait.
      eexists; exists [time_time; sock_connect_ex (sock g) addr; time_time; time_time].
      rewrite !log_is_extend, !extend_extend.
      repeat split; try reflexivity; discriminate.
  - cbn [connect_forever]. unfold bind at 1, outside at 1; cbn [fst snd].
    rewrite socket_connect_run. cbn zeta.
    destruct (py_in _ (CONNECT_ERR _)) eqn:Herr;
      [| destruct (py_in _ CONNECT_SUCCESS);
         (eexists; exists [sock_connect_ex (sock g) addr];
          rewrite !log_is_extend;
          repeat split; try reflexivity; discriminate)].
    rewrite Hwait. eexists; exists [sock_connect_ex (sock g) addr].
    rewrite !log_is_extend. repeat split; try reflexivity; discriminate.
Qed.

(** The wrapper [accept] builds around a client the OS hands over. *)
Definition accepted_client (client : Z) (w : world) : t :=
  {| sock := client; act_non_blocking := false; _timeout := getdefaulttimeout w;
     _closed := false |}.

Lemma accept_found (g : t) (w : world) (fuel : nat) (client : Z) (addr : address) :
  act_non_blocking g = false ->
  on_accept (answers w) (now w) = Gives (client, addr) ->
  accept (S fuel) (g, w)
  = (Return (Green (accepted_client client w) addr),
     (g, extend [sock_accept (sock g); sock_setblocking client false;
                 sock_setblocking client false] w)).
Proof.
  intros Hnb Hacc. unfold accept, bind at 1, self at 1; cbn [fst snd].
  rewrite Hnb. cbn [accept_loop].
  unfold bind at 1 2, self at 1, outside at 1, socket_accept, try_except at 1,
    bind at 1, call; cbn [fst snd].
  rewrite Hacc.
  change (extend [sock_accept (sock g); sock_setblocking client false;
                  sock_setblocking client false] w)
    with (extend ([sock_accept (sock g)] ++ [sock_setblocking client false]
                    ++ [sock_setblocking client false]) w).
  rewrite <- !extend_extend, <- !log_is_extend. reflexivity.
Qed.

Lemma accept_closed_socket (g : t) (w : world) (fuel : nat) :
  _closed g = true ->
  act_non_blocking g = false ->
  exists r l, accept (S fuel) (g, w) = (r, (g, extend l w))
              /\ count is_trampoline l = 0%nat
              /\ r <> OutOfFuel
              /\ (on_accept (answers w) (now w)
                  = Throws (socket_error errno.EWOULDBLOCK) ->
                  r = Raise IOClosed).
Proof.
  intros Hc Hnb.
  destruct (on_accept (answers w) (now w)) as [[client addr] | e] eqn:Hacc.
  { rewrite (accept_found g w fuel client addr Hnb Hacc).
    eexists; eexists. split; [reflexivity |].
    repeat split; try reflexivity; discriminate. }
  unfold accept, bind at 1, self at 1; cbn [fst snd].
  rewrite Hnb. cbn [accept_loop].
  unfold bind at 1 2, self at 1, outside at 1, socket_accept, try_except at 1,
    bind at 1, call; cbn [fst snd]. rewrite Hacc.
  destruct (is_socket_error e) eqn:Hs.
    + destruct (bool_decide (get_errno e = Some errno.EWOULDBLOCK)) eqn:Hb.
      * unfold ret at 1. unfold fileno, gettimeout, bind at 1 2 3 4, self at 1 2,
          ret at 1 2; cbn [fst snd]. unfold bind at 1.
        rewrite (trampoline_closed_socket g _ _ _ _ _ _ Hc).
        eexists; exists [sock_accept (sock g)]. rewrite log_is_extend.
        repeat split; try reflexivity; discriminate.
      * eexists; exists [sock_accept (sock g)]. unfold raise.
        rewrite log_is_extend.
        repeat split; try reflexivity; try discriminate.
        intros [= ->]. discriminate Hb.
    + eexists; exists [sock_accept (sock g)]. rewrite log_is_extend.
      repeat split; try reflexivity; try discriminate.
      intros [= ->]. discriminate Hs.
Qed.

(** X6: a socket marked closed (after the closed signal was seen once)
    never contacts the hub again: in the suspending mode [recv], [send],
    [connect], [accept] and [sendto] all end without a wait, and where the
    OS answer would have meant a wait, [recv] raises [EOFError], [send]
    [socket.error(ECONNRESET)], [connect] [socket.error(EBADFD)], [accept]
    and [sendto] [IOClosed]. The socket stays marked closed. *)
Theorem closed_socket_never_waits (g : t) (w : world) (fuel : nat)
    (buflen flags : Z) (data : bytes) (addr : address) :
  _closed g = true ->
  act_non_blocking g = false ->
  let p := sys_platform w in
  (never_waited w (recv (S fuel) buflen flags (g, w))
   /\ (forall e, on_recv (answers w) (now w) = Throws e ->
         errno_in (get_errno e) (SOCKET_BLOCKING p) = true ->
         fst (recv (S fuel) buflen flags (g, w)) = Raise EOFError))
  /\ (never_waited w (send (S fuel) data flags (g, w))
      /\ (forall e, on_send (answers w) (now w) = Throws e ->
            errno_in (get_errno e) (SOCKET_BLOCKING p) = true ->
            data <> [] ->
            fst (send (S fuel) data flags (g, w))
            = Raise (socket_error errno.ECONNRESET)))
  /\ (never_waited w (connect (S fuel) addr (g, w))
      /\ (_timeout g = None ->
          py_in (on_connect_ex (answers w) (now w)) (CONNECT_ERR p) = true ->
          fst (connect (S fuel) addr (g, w)) = Raise (socket_error errno.EBADFD)))
  /\ (never_waited w (accept (S fuel) (g, w))
      /\ (on_accept (answers w) (now w) = Throws (socket_error errno.EWOULDBLOCK) ->
          fst (accept (S fuel) (g, w)) = Raise IOClosed))
  /\ sendto data addr (g, w) = (Raise IOClosed, (g, w)).
Proof.
  intros Hc Hnb p.
  destruct (recv_closed_socket g w fuel buflen flags Hc Hnb) as (r1 & -> & Hr1 & He1).
  destruct (send_closed_socket g w fuel data flags Hc Hnb) as (r2 & -> & Hr2 & He2).
  destruct (connect_closed_socket g w fuel addr Hc Hnb)
    as (r3 & l3 & -> & Hl3 & Hr3 & He3).
  destruct (accept_closed_socket g w fuel Hc Hnb) as (r4 & l4 & -> & Hl4 & Hr4 & He4).
  repeat split; cbn [fst snd]; rewrite ?since_extend; auto.
  unfold sendto, fileno, bind at 1 2, self at 1, ret; cbn [fst snd].
  unfold bind at 1. rewrite (trampoline_closed_socket g w _ _ _ _ _ Hc).
  reflexivity.
Qed.

(** The listening socket finds nothing to accept. *)
Definition nothing_pending : world :=
  {| sys_platform := Posix; getdefaulttimeout := None;
     answers :=
       {| on_recv := fun _ => Throws (socket_error errno.EAGAIN);
          on_send := fun _ => Throws (socket_error errno.EAGAIN);
          on_sendto := on_sendto sample.quiet;
          on_connect := on_connect sample.quiet;
          on_connect_ex := fun _ => errno.EINPROGRESS;
          on_SO_ERROR := on_SO_ERROR sample.quiet;
          on_accept := fun _ => Throws (socket_error errno.EWOULDBLOCK);
          on_read := on_read sample.quiet;
          on_write := on_write sample.quiet;
          on_close := on_close sample.quiet;
          on_trampoline := on_trampoline sample.quiet;
          on_time := on_time sample.quiet |};
     trace := [] |}.

Lemma closed_socket_never_waits_witness :
  let g := set_closed true sample.green in
  fst (recv 1 1024 0 (g, nothing_pending)) = Raise EOFError
  /\ fst (send 1 abc 0 (g, nothing_pending)) = Raise (socket_error errno.ECONNRESET)
  /\ fst (connect 1 sample.localhost (g, nothing_pending))
     = Raise (socket_error errno.EBADFD)
  /\ fst (accept 1 (g, nothing_pending)) = Raise IOClosed
  /\ never_waited nothing_pending (accept 1 (g, nothing_pending)).
Proof.
  intros g.
  destruct (closed_socket_never_waits g nothing_pending 0 1024 0 abc
              sample.localhost eq_refl eq_refl)
    as ((_ & Hrecv) & (_ & Hsend) & (_ & Hconnect) & (Hquiet & Haccept) & _).
  split; [apply (Hrecv (socket_error errno.EAGAIN)); reflexivity |].
  split; [apply (Hsend (socket_error errno.EAGAIN)); [reflexivity .. | discriminate] |].
  split; [apply Hconnect; reflexivity |].
  split; [apply Haccept; reflexivity | exact Hquiet].
Defined.
End closed_socket.

(** ** [accept] and [connect] end once the OS is ready *)

Section more_accept.
Import GreenSocket.

Lemma accept_is_loop (g : t) (w : world) (fuel : nat) :
  act_non_blocking g = false -> accept fuel (g, w) = accept_loop fuel (g, w).
Proof.
  intros Hnb. unfold accept, bind, self; cbn [fst snd]. rewrite Hnb. reflexivity.
Qed.

(** The wait of [accept]: read readiness, bounded by the logical timeout. *)
Definition accept_wait (g : t) : event :=
  hub_trampoline (sock g) true false (_timeout g) (Some timed_out).

(** The events of [n] rounds that wait, then one [accept] that succeeds. *)
Fixpoint accept_rounds (n : nat) (g : t) (client : Z) : list event :=
  match n with
  | O => [sock_accept (sock g); sock_setblocking client false;
          sock_setblocking client false]
  | S n' => sock_accept (sock g) :: accept_wait g :: accept_rounds n' g client
  end.

Lemma accept_rounds_waits (n : nat) (g : t) (client : Z) :
  count is_trampoline (accept_rounds n g client) = n.
Proof.
  induction n as [| n IH]; [reflexivity |].
  cbn [accept_rounds]. rewrite !count_cons, IH. reflexivity.
Qed.

Lemma accept_retry (g : t) (w : world) (fuel : nat) :
  act_non_blocking g = false ->
  _closed g = false ->
  on_accept (answers w) (now w) = Throws (socket_error errno.EWOULDBLOCK) ->
  on_trampoline (answers w) (S (now w)) = Ready ->
  accept (S fuel) (g, w)
  = accept fuel (g, extend [sock_accept (sock g); accept_wait g] w).
Proof.
  intros Hnb Hc Hacc Hready.
  rewrite (accept_is_loop g w (S fuel) Hnb), (accept_is_loop g _ fuel Hnb).
  cbn [accept_loop].
  unfold bind at 1 2, self at 1, outside at 1, socket_accept, try_except at 1,
    bind at 1, call; cbn [fst snd].
  rewrite Hacc. cbn [is_socket_error socket_error get_errno].
  rewrite bool_decide_eq_true_2 by reflexivity.
  unfold ret at 1. unfold fileno, gettimeout, bind at 1 2 3 4, self at 1 2,
    ret at 1 2; cbn [fst snd]. unfold bind at 1.
  rewrite (trampoline_open_socket g _ _ _ _ _ _ Hc). cbn zeta.
  rewrite now_log. change (answers (log _ w)) with (answers w). rewrite Hready.
  rewrite !log_is_extend, extend_extend. unfold accept_wait.
  destruct (_timeout g); reflexivity.
Qed.

Lemma accept_converges (n : nat) (g : t) (client : Z) (addr : address) :
  act_non_blocking g = false ->
  _closed g = false ->
  forall (l : list event) (w : world),
    (forall i, (i < n)%nat ->
       on_accept (answers w) (now w + length l + 2 * i)%nat
       = Throws (socket_error errno.EWOULDBLOCK)
       /\ on_trampoline (answers w) (now w + length l + 2 * i + 1)%nat = Ready) ->
    on_accept (answers w) (now w + length l + 2 * n)%nat = Gives (client, addr) ->
    accept (S n) (g, extend l w)
    = (Return (Green (accepted_client client w) addr),
       (g, extend (l ++ accept_rounds n g client) w)).
Proof.
  intros Hnb Hc. induction n as [| n IH]; intros l w Hblock Hdata.
  - rewrite (accept_found g (extend l w) 0 client addr Hnb).
    + rewrite extend_extend. reflexivity.
    + rewrite now_extend. change (answers (extend l w)) with (answers w).
      rewrite <- Hdata. f_equal. lia.
  - destruct (Hblock 0%nat ltac:(lia)) as [Hacc Hready].
    rewrite (accept_retry g (extend l w) (S n) Hnb Hc).
    + rewrite extend_extend. rewrite IH.
      * cbn [accept_rounds]. rewrite <- app_assoc. reflexivity.
      * intros i Hi. rewrite length_app; cbn [length].
        destruct (Hblock (S i) ltac:(lia)) as [Ha Hr]. split.
        -- rewrite <- Ha. f_equal. lia.
        -- rewrite <- Hr. f_equal. lia.
      * rewrite length_app; cbn [length]. rewrite <- Hdata. f_equal. lia.
    + rewrite now_extend. change (answers (extend l w)) with (answers w).
      rewrite <- Hacc. f_equal. lia.
    + rewrite now_extend. change (answers (extend l w)) with (answers w).
      rewrite <- Hready. f_equal. lia.
Qed.

(** X7: in the suspending mode, when the OS answers [accept] with [n]
    would-block errors, each followed by a wake-up, and then with a client,
    [accept] returns after exactly [n] waits. The client comes back wrapped
    in a new green socket that is in the suspending mode, not marked closed,
    and has the default timeout of the [socket] module: it inherits neither
    the timeout nor the mode of the listening socket. *)
Theorem accept_returns_fresh_socket (n : nat) (g : t) (w : world) (client : Z)
    (addr : address) :
  act_non_blocking g = false ->
  _closed g = false ->
  (forall i, (i < n)%nat ->
     on_accept (answers w) (now w + 2 * i)%nat
     = Throws (socket_error errno.EWOULDBLOCK)
     /\ on_trampoline (answers w) (now w + 2 * i + 1)%nat = Ready) ->
  on_accept (answers w) (now w + 2 * n)%nat = Gives (client, addr) ->
  let run := accept (S n) (g, w) in
  fst run
  = Return (Green {| sock := client; act_non_blocking := false;
                     _timeout := getdefaulttimeout w; _closed := false |} addr)
  /\ fst (snd run) = g
  /\ count is_trampoline (since w (snd (snd run))) = n.
Proof.
  intros Hnb Hc Hblock Hdata run.
  assert (Hrun : run = (Return (Green (accepted_client client w) addr),
                        (g, extend ([] ++ accept_rounds n g client) w))).
  { unfold run. rewrite <- (extend_nil w) at 1.
    apply (accept_converges n g client addr Hnb Hc [] w).
    - intros i Hi. cbn [length]. rewrite Nat.add_0_r. apply Hblock, Hi.
    - cbn [length]. rewrite Nat.add_0_r. exact Hdata. }
  rewrite Hrun. cbn [fst snd app]. rewrite since_extend, accept_rounds_waits.
  repeat split.
Qed.

(** A listening socket with a timeout of five seconds; a client arrives
    after one wait. *)
Definition one_client_later : world :=
  {| sys_platform := Posix; getdefaulttimeout := None;
     answers :=
       {| on_recv := on_recv sample.quiet;
          on_send := on_send sample.quiet;
          on_sendto := on_sendto sample.quiet;
          on_connect := on_connect sample.quiet;
          on_connect_ex := on_connect_ex sample.quiet;
          on_SO_ERROR := on_SO_ERROR sample.quiet;
          on_accept := fun n => match n with
                                | O => Throws (socket_error errno.EWOULDBLOCK)
                                | _ => Gives (9, ("10.0.0.7"%string, 5555))
                                end;
          on_read := on_read sample.quiet;
          on_write := on_write sample.quiet;
          on_close := on_close sample.quiet;
          on_trampoline := on_trampoline sample.quiet;
          on_time := on_time sample.quiet |};
     trace := [] |}.

Lemma accept_returns_fresh_socket_witness :
  let listener := in_mode false (Some 5%float) sample.green in
  let run := accept 2 (listener, one_client_later) in
  fst run
  = Return (Green {| sock := 9; act_non_blocking := false; _timeout := None;
                     _closed := false |} ("10.0.0.7"%string, 5555))
  /\ fst (snd run) = listener
  /\ count is_trampoline (since one_client_later (snd (snd run))) = 1%nat.
Proof.
  intros listener.
  apply (accept_returns_fresh_socket 1 listener one_client_later 9
           ("10.0.0.7"%string, 5555)); try reflexivity.
  intros i Hi. assert (i = 0%nat) as -> by lia. split; reflexivity.
Defined.
End more_accept.

Section more_connect.
Import GreenSocket.

Lemma connect_is_loop (g : t) (w : world) (fuel : nat) (addr : address) :
  act_non_blocking g = false ->
  _timeout g = None ->
  connect fuel addr (g, w)
  = connect_forever fuel (sys_platform w) (sock g) (sock g) addr (g, w).
Proof.
  intros Hnb Hto. unfold connect, bind at 1, self at 1; cbn [fst snd].
  rewrite Hnb.
  unfold the_world, fileno, gettimeout, bind at 1 2 3 4 5, self, ret; cbn [fst snd].
  rewrite Hto. reflexivity.
Qed.

(** The wait of [connect] without deadline: write readiness, no timeout. *)
Definition connect_wait (g : t) : event :=
  hub_trampoline (sock g) false true None None.

(** One round of [connect] without deadline, when the OS says the
    connection is in progress. *)
Lemma connect_round (g : t) (w : world) (fuel : nat) (addr : address) :
  act_non_blocking g = false ->
  _timeout g = None ->
  _closed g = false ->
  py_in (on_connect_ex (answers w) (now w)) (CONNECT_ERR (sys_platform w)) = true ->
  let w2 := extend [sock_connect_ex (sock g) addr; connect_wait g] w in
  let w3 := extend [sock_connect_ex (sock g) addr; connect_wait g;
                    sock_getsockopt_SO_ERROR (sock g)] w in
  let err := on_SO_ERROR (answers w) (S (S (now w))) in
  connect (S fuel) addr (g, w)
  = match on_trampoline (answers w) (S (now w)) with
    | Closed => (Raise (socket_error errno.EBADFD), (set_closed true g, w2))
    | _ => if py_in err CONNECT_SUCCESS then connect fuel addr (g, w3)
           else (Raise (socket_error err), (g, w3))
    end.
Proof.
  intros Hnb Hto Hc Hpend w2 w3 err.
  rewrite (connect_is_loop g w (S fuel) addr Hnb Hto),
    (connect_is_loop g w3 fuel addr Hnb Hto).
  cbn [connect_forever]. unfold bind at 1, outside at 1; cbn [fst snd].
  rewrite socket_connect_run. cbn zeta. rewrite Hpend.
  unfold bind at 1, closed_as, try_except at 1.
  rewrite (trampoline_open_socket g _ _ _ _ _ _ Hc). cbn zeta.
  rewrite now_log. change (answers (log _ w)) with (answers w).
  fold (connect_wait g). rewrite !log_is_extend, extend_extend. cbn [app]. fold w2.
  assert (Hcheck : forall k : unit -> M state unit,
            bind (outside (socket_checkerr (sock g))) k (g, w2)
            = if py_in err CONNECT_SUCCESS then k tt (g, w3)
              else (Raise (socket_error err), (g, w3))).
  { intros k. unfold bind, outside, socket_checkerr, bind, ask; cbn [fst snd].
    unfold w2, w3, err. rewrite now_extend. cbn [length].
    change (answers (extend _ w)) with (answers w).
    replace (now w + 2)%nat with (S (S (now w))) by lia.
    rewrite log_is_extend, extend_extend. cbn [app].
    destruct (py_in _ CONNECT_SUCCESS); reflexivity. }
  destruct (on_trampoline (answers w) (S (now w))); first [apply Hcheck | reflexivity].
Qed.

(** The events of [n] rounds that wait, then one attempt that succeeds. *)
Fixpoint connect_rounds (n : nat) (g : t) (addr : address) : list event :=
  match n with
  | O => [sock_connect_ex (sock g) addr]
  | S n' => sock_connect_ex (sock g) addr :: connect_wait g
            :: sock_getsockopt_SO_ERROR (sock g) :: connect_rounds n' g addr
  end.

Lemma connect_rounds_waits (n : nat) (g : t) (addr : address) :
  count is_trampoline (connect_rounds n g addr) = n.
Proof.
  induction n as [| n IH]; [reflexivity |].
  cbn [connect_rounds]. rewrite !count_cons, IH. reflexivity.
Qed.

Lemma connect_converges (n : nat) (g : t) (addr : address) :
  act_non_blocking g = false ->
  _timeout g = None ->
  _closed g = false ->
  forall (l : list event) (w : world),
    (forall i, (i < n)%nat ->
       py_in (on_connect_ex (answers w) (now w + length l + 3 * i)%nat)
         (CONNECT_ERR (sys_platform w)) = true
       /\ on_trampoline (answers w) (now w + length l + 3 * i + 1)%nat = Ready
       /\ py_in (on_SO_ERROR (answers w) (now w + length l + 3 * i + 2)%nat)
            CONNECT_SUCCESS = true) ->
    py_in (on_connect_ex (answers w) (now w + length l + 3 * n)%nat)
      (CONNECT_ERR (sys_platform w)) = false ->
    py_in (on_connect_ex (answers w) (now w + length l + 3 * n)%nat)
      CONNECT_SUCCESS = true ->
    connect (S n) addr (g, extend l w)
    = (Return tt, (g, extend (l ++ connect_rounds n g addr) w)).
Proof.
  intros Hnb Hto Hc. induction n as [| n IH]; intros l w Hpend Hnot Hok.
  - rewrite (connect_is_loop g _ 1 addr Hnb Hto). cbn [connect_forever].
    unfold bind at 1, outside at 1; cbn [fst snd]. rewrite socket_connect_run.
    cbn zeta. rewrite now_extend. change (answers (extend l w)) with (answers w).
    change (sys_platform (extend l w)) with (sys_platform w).
    replace (now w + length l)%nat with (now w + length l + 3 * 0)%nat by lia.
    rewrite Hnot, Hok. rewrite log_is_extend, extend_extend. reflexivity.
  - destruct (Hpend 0%nat ltac:(lia)) as (Hp & Hready & Hso).
    replace (now w + length l + 3 * 0)%nat with (now w + length l)%nat in * by lia.
    rewrite (connect_round g (extend l w) (S n) addr Hnb Hto Hc)
      by (rewrite now_extend; exact Hp).
    cbn zeta. rewrite now_extend. change (answers (extend l w)) with (answers w).
    replace (S (now w + length l)) with (now w + length l + 1)%nat by lia.
    rewrite Hready.
    replace (S (now w + length l + 1)) with (now w + length l + 0 + 2)%nat by lia.
    rewrite Nat.add_0_r, Hso. rewrite extend_extend, IH.
    + cbn [connect_rounds]. rewrite <- app_assoc. reflexivity.
    + intros i Hi. rewrite length_app; cbn [length].
      destruct (Hpend (S i) ltac:(lia)) as (Ha & Hb & Hd). repeat split.
      * rewrite <- Ha. do 2 f_equal. lia.
      * rewrite <- Hb. f_equal. lia.
      * rewrite <- Hd. do 2 f_equal. lia.
    + rewrite length_app; cbn [length]. rewrite <- Hnot. do 2 f_equal. lia.
    + rewrite length_app; cbn [length]. rewrite <- Hok. do 2 f_equal. lia.
Qed.

(** X8: [connect] in the suspending mode without deadline. When the OS
    says [n] times that the connection is in progress, each time followed by
    a wake-up and a clean pending error, and then that it is established,
    [connect] returns after exactly [n] waits, each for write readiness and
    without timeout. When the pending error read after a wait is not a
    success code, [connect] raises [socket.error] with that code. *)
Theorem connect_returns_after_n_waits (n : nat) (g : t) (w : world) (addr : address) :
  act_non_blocking g = false ->
  _timeout g = None ->
  _closed g = false ->
  let p := sys_platform w in
  ((forall i, (i < n)%nat ->
      py_in (on_connect_ex (answers w) (now w + 3 * i)%nat) (CONNECT_ERR p) = true
      /\ on_trampoline (answers w) (now w + 3 * i + 1)%nat = Ready
      /\ py_in (on_SO_ERROR (answers w) (now w + 3 * i + 2)%nat) CONNECT_SUCCESS = true) ->
   py_in (on_connect_ex (answers w) (now w + 3 * n)%nat) (CONNECT_ERR p) = false ->
   py_in (on_connect_ex (answers w) (now w + 3 * n)%nat) CONNECT_SUCCESS = true ->
   connect (S n) addr (g, w) = (Return tt, (g, extend (connect_rounds n g addr) w))
   /\ count is_trampoline (connect_rounds n g addr) = n)
  /\ (py_in (on_connect_ex (answers w) (now w)) (CONNECT_ERR p) = true ->
      on_trampoline (answers w) (S (now w)) = Ready ->
      py_in (on_SO_ERROR (answers w) (S (S (now w)))) CONNECT_SUCCESS = false ->
      fst (connect (S n) addr (g, w))
      = Raise (socket_error (on_SO_ERROR (answers w) (S (S (now w)))))).
Proof.
  intros Hnb Hto Hc p. split.
  - intros Hpend Hnot Hok. split; [| apply connect_rounds_waits].
    rewrite <- (extend_nil w) at 1.
    rewrite (connect_converges n g addr Hnb Hto Hc [] w); [reflexivity | | |];
      cbn [length]; rewrite ?Nat.add_0_r; try assumption.
  - intros Hpend Hready Hso.
    rewrite (connect_round g w n addr Hnb Hto Hc Hpend). cbn zeta.
    rewrite Hready, Hso. reflexivity.
Qed.

(** The connection is in progress once, then established. *)
Definition connecting : world :=
  sample.posix
    (sample.with_connect_ex
       (fun n => match n with
                 | O => errno.EINPROGRESS
                 | _ => 0
                 end)
       sample.quiet).

Lemma connect_returns_after_n_waits_witness :
  connect 2 sample.localhost (sample.green, connecting)
  = (Return tt,
     (sample.green,
      extend [sock_connect_ex 3 sample.localhost;
              hub_trampoline 3 false true None None;
              sock_getsockopt_SO_ERROR 3;
              sock_connect_ex 3 sample.localhost] connecting)).
Proof.
  destruct (connect_returns_after_n_waits 1 sample.green connecting sample.localhost
              eq_refl eq_refl eq_refl) as [Hconv _].
  apply Hconv; try reflexivity.
  intros i Hi. assert (i = 0%nat) as -> by lia. repeat split.
Defined.
End more_connect.

(** ** The duck socket: drops without reuse, and teardown *)

Section more_refcount.
Import _SocketDuckForFd.

(** From a count that is not positive, drops only lower the count. *)
Lemma times_drop_below (k : nat) (d : t) (w : world) :
  _refcount d <= 0 ->
  times k _drop (d, w)
  = (Return tt, (set_refcount (_refcount d - Z.of_nat k) d, w)).
Proof.
  revert d. induction k as [| k IH]; intros d Hr.
  - cbn [times]. rewrite Z.sub_0_r, set_refcount_same. reflexivity.
  - cbn [times]. unfold bind. rewrite drop_run; cbn zeta.
    destruct (Z.eqb_spec (_refcount d - 1) 0) as [Hz | Hz]; [lia |].
    rewrite IH by (cbn [set_refcount _refcount]; lia).
    unfold set_refcount; cbn [_refcount _fileno _closed].
    replace (_refcount d - Z.of_nat (S k)) with (_refcount d - 1 - Z.of_nat k)
      by lia.
    reflexivity.
Qed.

(** X9: on a duck socket that was never reused, [_drop] (which is also
    [_decref_socketios], what the stream calls when it is closed) never
    releases the descriptor: any number of drops only takes the count below
    zero, with no [os.close] and no notification of the hub. The descriptor
    is released only by [__del__]. *)
Theorem drop_without_reuse_never_releases (fileno : Z) (w : world) (k : nat) :
  exists (d : t) (w0 : world),
    __init__ fileno w = (Return d, w0)
    /\ times k _decref_socketios (d, w0)
       = (Return tt, (set_refcount (- Z.of_nat k) d, w0))
    /\ _closed (set_refcount (- Z.of_nat k) d) = false
    /\ snd (snd (__del__ (set_refcount (- Z.of_nat k) d, w0)))
       = log (os_close fileno) (log (hub_notify_close fileno) w0).
Proof.
  exists {| _fileno := fileno; _refcount := 0; _closed := false |},
    (log (hub_mark_as_reopened fileno) w).
  split; [reflexivity |]. split.
  - unfold _decref_socketios. rewrite times_drop_below by (cbn; lia). reflexivity.
  - split; [reflexivity |]. unfold __del__. rewrite close_run. reflexivity.
Qed.

(** X10: [_close] does not look at [_closed]. After [n >= 1] reuses and
    [n] drops have released the descriptor, [__del__] notifies the hub and
    calls [os.close] on the same descriptor number a second time. *)
Theorem del_after_release_closes_again (fileno : Z) (w : world) (n : nat) :
  (1 <= n)%nat ->
  exists (d : t) (w0 : world),
    __init__ fileno w = (Return d, w0)
    /\ let released := snd (times n _drop (snd (times n _reuse (d, w0)))) in
       let run := __del__ released in
       _closed (fst released) = true
       /\ fst run = Return tt
       /\ since w0 (snd (snd run))
          = [hub_notify_close fileno; os_close fileno;
             hub_notify_close fileno; os_close fileno]
       /\ count is_release (since w0 (snd (snd run))) = 2%nat.
Proof.
  intros Hn.
  exists {| _fileno := fileno; _refcount := 0; _closed := false |},
    (log (hub_mark_as_reopened fileno) w).
  split; [reflexivity |]. cbn zeta.
  rewrite times_reuse; cbn [snd].
  rewrite (times_drop_all n) by (cbn [set_refcount _refcount]; lia).
  cbn [fst snd]. unfold __del__. rewrite close_run. cbn [fst snd set_closed
    set_refcount _fileno _closed].
  split; [reflexivity |]. split; [reflexivity |].
  assert (Hsince : forall w1 e1 e2 e3 e4,
            since w1 (log e4 (log e3 (log e2 (log e1 w1)))) = [e1; e2; e3; e4]).
  { intros w1 e1 e2 e3 e4. unfold since, log; cbn.
    rewrite <- !app_assoc. apply drop_app_length. }
  rewrite Hsince. split; reflexivity.
Qed.

Lemma del_after_release_closes_again_witness :
  exists (d : t) (w0 : world),
    __init__ 5 (sample.posix sample.quiet) = (Return d, w0)
    /\ count is_release
         (since w0
            (snd (snd (__del__
               (snd (times 2 _drop (snd (times 2 _reuse (d, w0))))))))) = 2%nat.
Proof.
  destruct (del_after_release_closes_again 5 (sample.posix sample.quiet) 2
              ltac:(lia)) as (d & w0 & Hinit & _ & _ & _ & Hcount).
  exists d, w0. split; [exact Hinit | exact Hcount].
Defined.
End more_refcount.

(** ** The pipe: truncating, and closing twice *)

Section more_pipe.
Import GreenPipe.

Ltac named := unfold closed_methods; rewrite !elem_of_cons; tauto.



Lemma pipe_eq (a b : t) :
  _fileno a = _fileno b -> _name a = _name b -> mode a = mode b ->
  closed a = closed b -> __dict__ a = __dict__ b -> a = b.
Proof. destruct a, b; cbn; intros; subst; reflexivity. Qed.

Lemma stubbed_fields (names : list string) (p : t) :
  _fileno (stubbed names p) = _fileno p
  /\ _name (stubbed names p) = _name p
  /\ mode (stubbed names p) = mode p
  /\ closed (stubbed names p) = closed p.
Proof.
  revert p. induction names as [| x names IH]; intros p; [repeat split |].
  unfold stubbed in *. cbn [foldl].
  destruct (IH (setattr x _operation_on_closed_file p)) as (H1 & H2 & H3 & H4).
  rewrite H1, H2, H3, H4. repeat split.
Qed.

Lemma stubbed_closed_twice (names : list string) (p : t) :
  stubbed names (set_closed true (stubbed names (set_closed true p)))
  = stubbed names (set_closed true p).
Proof.
  destruct (stubbed_fields names (set_closed true (stubbed names (set_closed true p))))
    as (G1 & G2 & G3 & G4).
  destruct (stubbed_fields names (set_closed true p)) as (H1 & H2 & H3 & H4).
  apply pipe_eq.
  - rewrite G1. unfold set_closed at 1. cbn [_fileno]. reflexivity.
  - rewrite G2. unfold set_closed at 1. cbn [_name]. reflexivity.
  - rewrite G3. unfold set_closed at 1. cbn [mode]. reflexivity.
  - rewrite G4, H4. reflexivity.
  - apply map_eq. intros name. rewrite stubbed_dict.
    unfold set_closed at 1. cbn [__dict__]. rewrite stubbed_dict.
    destruct (decide (name ∈ names)); reflexivity.
Qed.

(** X14: [close()] may be repeated: a second [close()] on a pipe raises
    nothing, makes no system call and leaves the pipe exactly as the first
    one left it. *)
Theorem pipe_close_twice (p : t) (d : disk) :
  close (snd (close (p, d))) = close (p, d).
Proof.
  rewrite (pipe_close_run p d). cbn [snd]. rewrite pipe_close_run.
  rewrite stubbed_closed_twice. reflexivity.
Qed.
End more_pipe.

(** ** The hub registry: default selection *)

Section more_hub.
Import hub.

(** The registry with another set of importable backends. *)
Definition with_importable (imp : gmap string backend) (s : state) : state :=
  {| _threadlocal := _threadlocal s; importable := imp; built := built s |}.

Definition not_callable : exn := TypeError "object is not callable".

Lemma get_hub_not_constructible (s : state) (v : pyval) :
  _threadlocal s !! "hub" = None ->
  _threadlocal s !! "Hub" = Some v ->
  (forall cls, v <> ClassVal cls) ->
  get_hub s = (Raise not_callable, s).
Proof.
  intros Hhub HHub Hv. unfold get_hub, bind at 1, get at 1. rewrite Hhub, HHub.
  unfold bind at 1, ret at 1, bind at 1, get at 1. rewrite HHub.
  destruct v as [| m | cls | cls n]; try reflexivity.
  destruct (Hv cls eq_refl).
Qed.

Lemma use_hub_none (s : state) :
  importable s !! "pyuv" = None ->
  importable s !! "epoll" = None ->
  _threadlocal s !! "hub" = None ->
  use_hub NoneVal s = (Return tt, selected NoneVal s).
Proof.
  intros Hpyuv Hepoll Hhub. unfold use_hub. cbn [falsy].
  assert (Hrun : get_default_hub s = (Return NoneVal, s)).
  { rewrite get_default_hub_run, Hpyuv, Hepoll. reflexivity. }
  rewrite (bind_returned _ _ s s NoneVal Hrun).
  destruct s as [tl imp n]. cbn [_threadlocal] in Hhub.
  unfold bind, modify, selected, set_threadlocal; cbn [_threadlocal importable built
    Hub_of]. rewrite Hhub. reflexivity.
Qed.

(** X15: when neither backend can be imported, the first [get_hub] of a
    thread raises [TypeError] (it calls [None]) and builds nothing; the failed
    selection stays stored as the hub type, so every later [get_hub] fails
    the same way, also once a backend can be imported, until [use_hub] is
    called again. *)
Theorem get_hub_without_backend (s : state) :
  _threadlocal s !! "hub" = None ->
  _threadlocal s !! "Hub" = None ->
  importable s !! "pyuv" = None ->
  importable s !! "epoll" = None ->
  get_hub s = (Raise not_callable, selected NoneVal s)
  /\ (forall imp,
        let later := with_importable imp (selected NoneVal s) in
        get_hub later = (Raise not_callable, later))
  /\ (forall imp m cls,
        imp !! "pyuv" = Some m ->
        backend_Hub m = Some cls ->
        let later := with_importable imp (selected NoneVal s) in
        fst (get_hub (snd (use_hub NoneVal later)))
        = Return (InstanceVal cls (built s))).
Proof.
  intros Hhub HHub Hpyuv Hepoll.
  assert (Hsel : forall imp,
            _threadlocal (with_importable imp (selected NoneVal s)) !! "hub" = None
            /\ _threadlocal (with_importable imp (selected NoneVal s)) !! "Hub"
               = Some NoneVal).
  { intros imp. cbn. split; [| apply lookup_insert_eq].
    rewrite lookup_insert_ne by discriminate. exact Hhub. }
  split; [| split].
  - unfold get_hub, bind at 1, get at 1. rewrite Hhub, HHub.
    rewrite (bind_returned _ _ _ _ tt (use_hub_none s Hpyuv Hepoll Hhub)).
    unfold bind at 1, get at 1.
    assert (HN : _threadlocal (selected NoneVal s) !! "Hub" = Some NoneVal)
      by apply lookup_insert_eq.
    rewrite HN. reflexivity.
  - intros imp later. destruct (Hsel imp) as [H1 H2].
    apply (get_hub_not_constructible later NoneVal H1 H2). discriminate.
  - intros imp m cls Him Hcls later. destruct (Hsel imp) as [H1 H2].
    assert (Hdefault : fst (get_default_hub later) = Return (ModuleVal m)).
    { rewrite get_default_hub_run. cbn [fst importable later with_importable].
      rewrite Him. reflexivity. }
    rewrite (use_hub_default later m Hdefault), use_hub_run by reflexivity.
    cbn [snd Hub_of]. rewrite Hcls. cbn [fmap option_fmap option_map default].
    rewrite (forget_nothing later H1).
    erewrite get_hub_first; [reflexivity | |].
    + cbn. rewrite lookup_insert_ne by discriminate.
      rewrite lookup_insert_ne by discriminate. exact Hhub.
    + apply lookup_insert_eq.
Qed.

(** A thread on a machine where no backend is installed. *)
Definition bare_thread : state :=
  {| _threadlocal := ∅; importable := ∅; built := 0 |}.

Lemma get_hub_without_backend_witness :
  fst (get_hub bare_thread) = Raise not_callable
  /\ fst (get_hub (with_importable {["epoll" := epoll]} (snd (get_hub bare_thread))))
     = Raise not_callable.
Proof.
  destruct (get_hub_without_backend bare_thread eq_refl eq_refl eq_refl eq_refl)
    as (Hfirst & Hlater & _).
  split; [rewrite Hfirst; reflexivity |].
  rewrite Hfirst. cbn [snd]. rewrite (Hlater {["epoll" := epoll]}). reflexivity.
Defined.

(** X16: the default backend is the first of [pyuv], [epoll] that can be
    imported, whether or not it can be constructed. With [pyuv] importable
    and holding a class [Hub], the first [get_hub] of a thread builds a
    [pyuv] hub even when [epoll] is there too; with a [pyuv] module that has
    no [Hub], the module itself becomes the hub type, [get_hub] raises
    [TypeError], and [epoll] is not tried. *)
Theorem default_backend_is_first_importable (s : state) (m : backend) :
  _threadlocal s !! "hub" = None ->
  _threadlocal s !! "Hub" = None ->
  importable s !! "pyuv" = Some m ->
  (forall cls, backend_Hub m = Some cls ->
     get_hub s
     = (Return (InstanceVal cls (built s)), cached cls (selected (ClassVal cls) s)))
  /\ (backend_Hub m = None ->
      get_hub s = (Raise not_callable, selected (ModuleVal m) s)).
Proof.
  intros Hhub HHub Hpyuv.
  assert (Hdefault : fst (get_default_hub s) = Return (ModuleVal m)).
  { rewrite get_default_hub_run, Hpyuv. reflexivity. }
  split.
  - intros cls Hcls. apply (get_hub_default s m cls Hhub HHub Hdefault Hcls).
  - intros Hnone. unfold get_hub, bind at 1, get at 1. rewrite Hhub, HHub.
    assert (Huse : use_hub NoneVal s = (Return tt, selected (ModuleVal m) s)).
    { rewrite (use_hub_default s m Hdefault), use_hub_run by reflexivity.
      cbn [Hub_of]. rewrite Hnone. cbn [fmap option_fmap option_map default].
      rewrite (forget_nothing s Hhub). reflexivity. }
    rewrite (bind_returned _ _ _ _ tt Huse). unfold bind at 1, get at 1.
    assert (HM : _threadlocal (selected (ModuleVal m) s) !! "Hub"
                 = Some (ModuleVal m)) by apply lookup_insert_eq.
    rewrite HM. reflexivity.
Qed.

Lemma default_backend_is_first_importable_witness :
  let pyuv := {| backend_name := "pyuv"; backend_Hub := Some "pyuv.Hub" |} in
  let s := {| _threadlocal := ∅;
              importable := {["pyuv" := pyuv; "epoll" := epoll]};
              built := 0 |} in
  fst (get_hub s) = Return (InstanceVal "pyuv.Hub" 0).
Proof.
  intros pyuv s.
  destruct (default_backend_is_first_importable s pyuv eq_refl eq_refl eq_refl)
    as [Hclass _].
  rewrite (Hclass "pyuv.Hub" eq_refl). reflexivity.
Defined.
End more_hub.

(** ** [set_nonblocking], with its fallback on [fcntl] *)

Module nonblocking.

(** [os.O_NONBLOCK] on Linux: bit 11. *)
Definition O_NONBLOCK : Z := 2048.

Inductive syscall :=
| F_GETFL (fd : Z)                  (* fcntl.fcntl(fd, F_GETFL) *)
| F_SETFL (fd flags : Z).           (* fcntl.fcntl(fd, F_SETFL, flags) *)

Record os := {
  has_fcntl : bool;                  (* [import fcntl] succeeds *)
  status_flags : gmap Z Z;           (* the flag word of every open descriptor *)
  calls : list syscall;              (* oldest first *)
}.

(** The object handed to [set_nonblocking]: its own [setblocking] method
    when it has one (what the method does is the object's business), and
    what its [fileno()] returns. *)
Record fileobj := {
  setblocking : option (Z -> M os unit);
  fileno : Z;
}.

(** [sock.setblocking] raises [AttributeError]. *)
Definition has_setblocking (sock : fileobj) : bool :=
  match setblocking sock with
  | Some _ => true
  | None => false
  end.

Definition EBADF : Z := 9.

Definition called (c : syscall) (s : os) : os :=
  {| has_fcntl := has_fcntl s; status_flags := status_flags s;
     calls := calls s ++ [c] |}.

Definition store (fd flags : Z) (s : os) : os :=
  {| has_fcntl := has_fcntl s; status_flags := <[fd := flags]> (status_flags s);
     calls := calls s |}.

(** [fcntl.fcntl(fd, F_GETFL)] *)
Definition fcntl_getfl (fd : Z) : M os Z :=
  fun s =>
    match status_flags s !! fd with
    | Some flags => (Return flags, called (F_GETFL fd) s)
    | None => (Raise (socket_error EBADF), called (F_GETFL fd) s)
    end.

(** [fcntl.fcntl(fd, F_SETFL, flags)] *)
Definition fcntl_setfl (fd flags : Z) : M os unit :=
  fun s =>
    match status_flags s !! fd with
    | Some _ => (Return tt, store fd flags (called (F_SETFL fd flags) s))
    | None => (Raise (socket_error EBADF), called (F_SETFL fd flags) s)
    end.

Definition set_nonblocking (sock : fileobj) : M os unit :=
  match setblocking sock with
  | Some setblocking => setblocking 0
  | None =>
      s <- get;;
      if negb (has_fcntl s) then raise (OtherError "NotImplementedError")
      else
        orig_flags <- fcntl_getfl (fileno sock);;
        let new_flags := Z.lor orig_flags O_NONBLOCK in
        if negb (Z.eqb new_flags orig_flags) then fcntl_setfl (fileno sock) new_flags
        else ret tt
  end.
End nonblocking.

Section set_nonblocking_facts.
Import nonblocking.

Lemma lor_nonblock_bits (flags : Z) (i : Z) :
  Z.testbit (Z.lor flags O_NONBLOCK) i
  = if Z.eqb i 11 then true else Z.testbit flags i.
Proof.
  rewrite Z.lor_spec. change O_NONBLOCK with (2 ^ 11).
  destruct (Z.eqb_spec i 11) as [-> | Hne].
  - rewrite Z.pow2_bits_true by lia. apply orb_true_r.
  - rewrite Z.pow2_bits_false by lia. apply orb_false_r.
Qed.

Lemma lor_nonblock_same (flags : Z) :
  Z.eqb (Z.lor flags O_NONBLOCK) flags = Z.testbit flags 11.
Proof.
  destruct (Z.testbit flags 11) eqn:Hbit.
  - apply Z.eqb_eq. apply Z.bits_inj'. intros i _. rewrite lor_nonblock_bits.
    destruct (Z.eqb_spec i 11) as [-> | _]; [symmetry; exact Hbit | reflexivity].
  - apply Z.eqb_neq. intros Heq.
    pose proof (lor_nonblock_bits flags 11) as H11. rewrite Heq, Hbit in H11.
    discriminate.
Qed.

(** What [set_nonblocking] does to an open descriptor of an object without
    [setblocking]. *)
Lemma set_nonblocking_run (sock : fileobj) (s : os) (flags : Z) :
  has_setblocking sock = false ->
  status_flags s !! fileno sock = Some flags ->
  set_nonblocking sock s
  = if has_fcntl s then
      if Z.testbit flags 11 then (Return tt, called (F_GETFL (fileno sock)) s)
      else
        (Return tt,
         store (fileno sock) (Z.lor flags O_NONBLOCK)
           (called (F_SETFL (fileno sock) (Z.lor flags O_NONBLOCK))
              (called (F_GETFL (fileno sock)) s)))
    else (Raise (OtherError "NotImplementedError"), s).
Proof.
  intros Hno Hfd. unfold set_nonblocking. unfold has_setblocking in Hno.
  destruct (setblocking sock); [discriminate |].
  unfold bind at 1, get. destruct (has_fcntl s) eqn:Hf; [| reflexivity].
  cbn [negb]. unfold bind, fcntl_getfl. rewrite Hfd.
  rewrite lor_nonblock_same. destruct (Z.testbit flags 11); [reflexivity |].
  cbn [negb]. unfold fcntl_setfl. cbn [called status_flags]. rewrite Hfd.
  reflexivity.
Qed.

(** An object with a [setblocking] method gets one call of it, with 0, and
    no [fcntl] call from [set_nonblocking] itself. *)
Lemma set_nonblocking_delegates (sock : fileobj) (method : Z -> M os unit) :
  setblocking sock = Some method -> set_nonblocking sock = method 0.
Proof. intros Hm. unfold set_nonblocking. rewrite Hm. reflexivity. Qed.

(** X17: for an object without [setblocking] (a pipe, a file) on an open
    descriptor, when [fcntl] can be imported, [set_nonblocking] returns with
    [O_NONBLOCK] set in the flag word of that descriptor, every other flag
    bit as it was, and the flag words of all other descriptors untouched.
    When [fcntl] cannot be imported, it raises [NotImplementedError] and
    touches nothing. *)
Theorem set_nonblocking_sets_the_flag (sock : fileobj) (s : os) (flags : Z) :
  has_setblocking sock = false ->
  status_flags s !! fileno sock = Some flags ->
  (has_fcntl s = true ->
   let s' := snd (set_nonblocking sock s) in
   fst (set_nonblocking sock s) = Return tt
   /\ (exists flags',
         status_flags s' !! fileno sock = Some flags'
         /\ Z.testbit flags' 11 = true
         /\ forall i, i <> 11 -> Z.testbit flags' i = Z.testbit flags i)
   /\ forall fd, fd <> fileno sock -> status_flags s' !! fd = status_flags s !! fd)
  /\ (has_fcntl s = false ->
      set_nonblocking sock s = (Raise (OtherError "NotImplementedError"), s)).
Proof.
  intros Hno Hfd. rewrite (set_nonblocking_run sock s flags Hno Hfd). split.
  - intros ->. cbn zeta.
    assert (Hbits : Z.testbit (Z.lor flags O_NONBLOCK) 11 = true
                    /\ forall i, i <> 11 ->
                         Z.testbit (Z.lor flags O_NONBLOCK) i = Z.testbit flags i).
    { split; [rewrite lor_nonblock_bits; reflexivity |].
      intros i Hi. rewrite lor_nonblock_bits.
      destruct (Z.eqb_spec i 11); [contradiction | reflexivity]. }
    destruct (Z.testbit flags 11) eqn:Hbit; cbn [fst snd].
    + split; [reflexivity |]. split.
      * exists flags. split; [exact Hfd |]. split; [exact Hbit | reflexivity].
      * reflexivity.
    + split; [reflexivity |]. split.
      * exists (Z.lor flags O_NONBLOCK). split; [apply lookup_insert_eq | exact Hbits].
      * intros fd Hne. cbn. apply lookup_insert_ne. congruence.
  - intros ->. reflexivity.
Qed.

(** A pipe end on descriptor 7, opened read-write ([O_RDWR] is 2); the
    object around it has no [setblocking]. *)
Definition pipe_end : fileobj := {| setblocking := None; fileno := 7 |}.

Definition linux : os :=
  {| has_fcntl := true; status_flags := {[7 := 2]}; calls := [] |}.

Lemma set_nonblocking_sets_the_flag_witness :
  status_flags (snd (set_nonblocking pipe_end linux)) !! 7 = Some 2050
  /\ calls (snd (set_nonblocking pipe_end linux)) = [F_GETFL 7; F_SETFL 7 2050].
Proof.
  destruct (set_nonblocking_sets_the_flag pipe_end linux 2 eq_refl eq_refl)
    as [Hset _].
  destruct (Hset eq_refl) as (_ & (flags' & Hflags & _) & _).
  split; reflexivity.
Defined.

(** X18: through [fcntl], [set_nonblocking] writes the flags only when
    they change: on a descriptor that already has [O_NONBLOCK] it reads the
    flags and makes no [F_SETFL] call; so a second [set_nonblocking] after a
    first one changes nothing and only adds one [F_GETFL]. *)
Theorem set_nonblocking_again (sock : fileobj) (s : os) (flags : Z) :
  has_setblocking sock = false ->
  has_fcntl s = true ->
  status_flags s !! fileno sock = Some flags ->
  let s1 := snd (set_nonblocking sock s) in
  set_nonblocking sock s1
  = (Return tt, called (F_GETFL (fileno sock)) s1).
Proof.
  intros Hno Hf Hfd. cbn zeta.
  rewrite (set_nonblocking_run sock s flags Hno Hfd), Hf.
  destruct (Z.testbit flags 11) eqn:Hbit; cbn [snd].
  - rewrite (set_nonblocking_run sock _ flags Hno) by exact Hfd.
    cbn [has_fcntl called]. rewrite Hf, Hbit. reflexivity.
  - rewrite (set_nonblocking_run sock _ (Z.lor flags O_NONBLOCK) Hno)
      by apply lookup_insert_eq.
    cbn [has_fcntl called store]. rewrite Hf.
    rewrite lor_nonblock_bits. reflexivity.
Qed.

Lemma set_nonblocking_again_witness :
  calls (snd (set_nonblocking pipe_end (snd (set_nonblocking pipe_end linux))))
  = [F_GETFL 7; F_SETFL 7 2050; F_GETFL 7].
Proof.
  rewrite (set_nonblocking_again pipe_end linux 2 eq_refl eq_refl eq_refl).
  reflexivity.
Defined.
End set_nonblocking_facts.

(** ** What [_SocketDuckForFd.sendall] hands to the OS *)

(** The bytes the OS took, read off a trace that starts at index [i]: of
    every [os.write] that returned [n], the first [n] bytes offered. *)
Fixpoint accepted (o : oracle) (i : nat) (l : list event) : bytes :=
  match l with
  | [] => []
  | ev :: l' =>
      match ev, on_write o i with
      | os_write _ offered, Gives n => take (Z.to_nat n) offered
      | _, _ => []
      end ++ accepted o (S i) l'
  end.

Section more_duck.
Import _SocketDuckForFd.

Lemma take_then_take_drop {A} (n m : nat) (l : list A) :
  take n l ++ take m (drop n l) = take (n + m) l.
Proof.
  revert l. induction n as [| n IH]; intros l; [reflexivity |].
  destruct l as [| x l]; [rewrite drop_nil, !take_nil; reflexivity |].
  cbn [take drop app Nat.add]. rewrite IH. reflexivity.
Qed.

Lemma accepted_app (o : oracle) (i : nat) (l1 l2 : list event) :
  accepted o i (l1 ++ l2) = accepted o i l1 ++ accepted o (i + length l1) l2.
Proof.
  revert i. induction l1 as [| ev l1 IH]; intros i.
  - cbn. rewrite Nat.add_0_r. reflexivity.
  - cbn [app accepted length]. rewrite IH, <- app_assoc.
    replace (S i + length l1)%nat with (i + S (length l1))%nat by lia. reflexivity.
Qed.

(** One [os.write] of [sendall]: one event, and the counter moves by what
    the OS took. *)
Lemma write_some_run (fd : Z) (offered : bytes) (total : Z) (d : t) (w : world) :
  (forall i n, on_write (answers w) i = Gives n -> 0 <= n) ->
  exists r,
    write_some fd offered total (d, w) = (r, (d, log (os_write fd offered) w))
    /\ match r with
       | Return total' =>
           0 <= total' - total
           /\ accepted (answers w) (now w) [os_write fd offered]
              = take (Z.to_nat (total' - total)) offered
       | Raise _ => accepted (answers w) (now w) [os_write fd offered] = []
       | OutOfFuel => False
       end.
Proof.
  intros Hsane. unfold write_some, try_except, bind, outside, call, ret.
  cbn [accepted fst snd].
  destruct (on_write (answers w) (now w)) as [n | e] eqn:Hw.
  - eexists; split; [reflexivity |]. cbn beta iota.
    replace (total + n - total) with n by lia.
    split; [exact (Hsane _ _ Hw) | apply app_nil_r].
  - destruct (is_socket_error e);
      [destruct (bool_decide (get_errno e = Some errno.EAGAIN)) |];
      cbn [negb]; eexists; (split; [reflexivity |]); cbn beta iota;
      try reflexivity.
    replace (total - total) with 0 by lia. split; [lia | reflexivity].
Qed.

(** One round of the loop: a wait through [self._trampoline], then one
    [os.write] of what is left. *)
Lemma sendall_loop_round (fuel : nat) (fd : Z) (data : bytes) (total : Z)
    (d : t) (w : world) :
  total < Z.of_nat (length data) ->
  sendall_loop (S fuel) fd data total (d, w)
  = if _closed d then (Raise IOClosed, (d, w))
    else
      let w1 := log (hub_trampoline (_fileno d) false true None None) w in
      match on_trampoline (answers w) (now w) with
      | Closed => (Raise IOClosed, (set_closed true d, w1))
      | _ =>
          (total_sent <- write_some fd (slice_from total data) total;;
           sendall_loop fuel fd data total_sent) (d, w1)
      end.
Proof.
  intros Hlt. cbn [sendall_loop].
  destruct (Z.ltb_spec total (Z.of_nat (length data))) as [_ | Hge]; [| lia].
  unfold bind at 1. unfold fileno at 1, bind at 1, self at 1, ret at 1.
  cbn [fst snd]. unfold bind at 1. rewrite duck_trampoline_run.
  destruct (_closed d); [reflexivity |]. cbn zeta.
  destruct (on_trampoline (answers w) (now w)); reflexivity.
Qed.

Lemma now_log_next (e : event) (w : world) : now (log e w) = S (now w).
Proof. unfold now, log; cbn. rewrite length_app, Nat.add_comm. reflexivity. Qed.

(** The invariant of the loop: what the OS took so far is the first
    [total_sent] bytes of the data. *)
Lemma sendall_loop_in_order (fuel : nat) (fd : Z) (data : bytes) (total : Z)
    (d : t) (w : world) :
  (forall i n, on_write (answers w) i = Gives n -> 0 <= n) ->
  0 <= total ->
  exists (l : list event) (total' : Z),
    snd (snd (sendall_loop fuel fd data total (d, w))) = extend l w
    /\ 0 <= total'
    /\ take (Z.to_nat total) data ++ accepted (answers w) (now w) l
       = take (Z.to_nat total') data
    /\ (fst (sendall_loop fuel fd data total (d, w)) = Return tt ->
        Z.of_nat (length data) <= total').
Proof.
  revert total d w. induction fuel as [| fuel IH]; intros total d w Hsane Htotal.
  - exists [], total. cbn [sendall_loop].
    destruct (Z.ltb_spec total (Z.of_nat (length data))) as [Hlt | Hge];
      cbn [fst snd accepted]; rewrite extend_nil, app_nil_r;
      (split; [reflexivity |]); (split; [exact Htotal |]);
      (split; [reflexivity |]); [discriminate | intros _; exact Hge].
  - destruct (Z.ltb_spec total (Z.of_nat (length data))) as [Hlt | Hge].
    2:{ exists [], total. cbn [sendall_loop].
        destruct (Z.ltb_spec total (Z.of_nat (length data))) as [Hlt | _]; [lia |].
        cbn [fst snd accepted]. rewrite extend_nil, app_nil_r.
        split; [reflexivity |]. split; [exact Htotal |].
        split; [reflexivity | intros _; exact Hge]. }
    rewrite (sendall_loop_round fuel fd data total d w Hlt).
    destruct (_closed d).
    { exists [], total. cbn [fst snd accepted]. rewrite extend_nil, app_nil_r.
      split; [reflexivity |]. split; [exact Htotal |].
      split; [reflexivity | discriminate]. }
    cbn zeta.
    set (tr := hub_trampoline (_fileno d) false true None None).
    set (wr := os_write fd (slice_from total data)).
    assert (Hstep :
              exists (l : list event) (total' : Z),
                snd (snd ((total_sent <- write_some fd (slice_from total data) total;;
                           sendall_loop fuel fd data total_sent) (d, log tr w)))
                = extend l w
                /\ 0 <= total'
                /\ take (Z.to_nat total) data ++ accepted (answers w) (now w) l
                   = take (Z.to_nat total') data
                /\ (fst ((total_sent <- write_some fd (slice_from total data) total;;
                          sendall_loop fuel fd data total_sent) (d, log tr w))
                    = Return tt ->
                    Z.of_nat (length data) <= total')).
    { unfold bind.
      destruct (write_some_run fd (slice_from total data) total d (log tr w) Hsane)
        as (r & -> & Hr).
      fold wr in Hr |- *. rewrite now_log_next in Hr.
      change (answers (log tr w)) with (answers w) in Hr.
      destruct r as [total' | e |]; [| | contradiction].
      - destruct Hr as [Hmore Htook].
        destruct (IH total' d (log wr (log tr w)) Hsane ltac:(lia))
          as (l & total'' & Hworld & Hpos & Hacc & Hdone).
        rewrite !now_log_next in Hacc.
        change (answers (log wr (log tr w))) with (answers w) in Hacc.
        exists ([tr] ++ [wr] ++ l), total''.
        split; [rewrite Hworld, !log_is_extend, !extend_extend; reflexivity |].
        split; [exact Hpos |]. split; [| exact Hdone].
        rewrite <- Hacc, !accepted_app. cbn [length].
        replace (now w + 1)%nat with (S (now w)) by lia.
        replace (S (now w) + 1)%nat with (S (S (now w))) by lia.
        rewrite Htook. change (accepted (answers w) (now w) [tr]) with (@nil Byte.byte).
        cbn [app]. rewrite app_assoc. f_equal.
        unfold slice_from. destruct (Z.ltb_spec total 0) as [Hneg | _]; [lia |].
        rewrite take_then_take_drop. f_equal. lia.
      - exists ([tr] ++ [wr]), total. cbn [fst snd].
        split; [rewrite !log_is_extend, !extend_extend; reflexivity |].
        split; [exact Htotal |]. split; [| discriminate].
        rewrite accepted_app. cbn [length].
        replace (now w + 1)%nat with (S (now w)) by lia.
        rewrite Hr. change (accepted (answers w) (now w) [tr]) with (@nil Byte.byte).
        apply app_nil_r. }
    destruct (on_trampoline (answers w) (now w));
      [exact Hstep | exact Hstep |].
    exists [tr], total. cbn [fst snd].
    split; [reflexivity |]. split; [exact Htotal |].
    split; [apply app_nil_r | discriminate].
Qed.

(** X19: [sendall] of a duck socket never hands a byte to the OS twice or
    out of order. Whatever the OS and the hub answer, and however the call
    ends, the bytes the OS took are a prefix of the data; when [sendall]
    returns, they are the data. (An [os.write] that returns, returns a count
    that is not negative.) *)
Theorem duck_sendall_writes_in_order (fuel : nat) (data : bytes) (d : t) (w : world) :
  (forall i n, on_write (answers w) i = Gives n -> 0 <= n) ->
  let run := sendall fuel data (d, w) in
  exists l : list event,
    snd (snd run) = extend l w
    /\ accepted (answers w) (now w) l `prefix_of` data
    /\ (fst run = Return tt -> accepted (answers w) (now w) l = data).
Proof.
  intros Hsane. cbn zeta. unfold sendall, bind, self. cbn [fst snd].
  destruct (write_some_run (_fileno d) data 0 d w Hsane) as (r & -> & Hr).
  set (wr := os_write (_fileno d) data) in *.
  destruct r as [total | e |]; [| | contradiction].
  2:{ exists [wr]. cbn [fst snd]. rewrite Hr.
      split; [reflexivity |]. split; [apply prefix_nil | discriminate]. }
  destruct Hr as [Hmore Htook]. rewrite Z.sub_0_r in Hmore, Htook.
  destruct (sendall_loop_in_order fuel (_fileno d) data total d (log wr w)
              Hsane Hmore)
    as (l & total' & Hworld & Hpos & Hacc & Hdone).
  rewrite now_log_next in Hacc. change (answers (log wr w)) with (answers w) in Hacc.
  exists ([wr] ++ l).
  assert (Hall : accepted (answers w) (now w) ([wr] ++ l)
                 = take (Z.to_nat total') data).
  { rewrite accepted_app, Htook, <- Hacc. cbn [length].
    replace (now w + 1)%nat with (S (now w)) by lia.
    reflexivity. }
  split; [rewrite Hworld, log_is_extend, extend_extend; reflexivity |].
  rewrite Hall. split.
  - exists (drop (Z.to_nat total') data). symmetry. apply take_drop.
  - intros Hret. apply take_ge. specialize (Hdone Hret). lia.
Qed.

(** The OS takes one byte, then says [EAGAIN], then takes the rest. *)
Definition slow_writes : world :=
  sample.posix
    (sample.with_write
       (fun n => match n with
                 | O => Gives 1
                 | 2%nat => Throws (socket_error errno.EAGAIN)
                 | _ => Gives 2
                 end)
       sample.quiet).

Lemma slow_writes_sane :
  forall i n, on_write (answers slow_writes) i = Gives n -> 0 <= n.
Proof.
  intros i n. cbn. destruct i as [| [| [| i]]]; intros [= <-]; lia.
Qed.

Lemma duck_sendall_writes_in_order_witness :
  fst (sendall 3 abc (sample.duck, slow_writes)) = Return tt
  /\ exists l,
       snd (snd (sendall 3 abc (sample.duck, slow_writes))) = extend l slow_writes
       /\ accepted (answers slow_writes) 0 l = abc.
Proof.
  split; [reflexivity |].
  destruct (duck_sendall_writes_in_order 3 abc sample.duck slow_writes
              slow_writes_sane) as (l & Hworld & _ & Hall).
  exists l. split; [exact Hworld | exact (Hall eq_refl)].
Defined.
End more_duck.
